(** * Brand pattern generator: layout engine, asset normalizer, vector renderer

    A shallow embedding of [BrandPatternGenerator] (the React component of
    the repository) and the properties its specification states about it.

    JavaScript numbers are embedded as exact rationals extended with the
    three non-finite values ([NaN], [+Infinity], [-Infinity]); rounding to
    binary64 and the sign of zero are not represented.  [Math.random], the
    clock, the file readers, the image decoder and the DOM parser are inputs
    of the model. *)

From Stdlib Require Import ZArith QArith Qround Qabs Qminmax Lqa Lia List String Ascii Bool.
From Stdlib Require DecimalString DecimalPos DecimalN.
Import ListNotations.

Set Implicit Arguments.
Open Scope string_scope.
Open Scope list_scope.
Open Scope Q_scope.

(** ** JavaScript numbers *)

Module JS.

Inductive number : Type :=
| Fin (q : Q)
| PosInf
| NegInf
| NaN.

Definition of_Z (z : Z) : number := Fin (inject_Z z).
Definition of_nat (n : nat) : number := of_Z (Z.of_nat n).

(** Equality of numbers as values: [Qeq] on the finite ones. *)
Definition num_eq (a b : number) : Prop :=
  match a, b with
  | Fin p, Fin q => p == q
  | PosInf, PosInf | NegInf, NegInf | NaN, NaN => True
  | _, _ => False
  end.

Definition Qlt_bool (a b : Q) : bool := negb (Qle_bool b a).

(** Sign of a rational: [Gt] positive, [Eq] zero, [Lt] negative. *)
Definition Qsign (q : Q) : comparison := q ?= 0.

Definition signed_inf (s : comparison) : number :=
  match s with Gt => PosInf | Lt => NegInf | Eq => NaN end.

Definition flip (s : comparison) : comparison := CompOpp s.

(** Unary minus. *)
Definition neg (a : number) : number :=
  match a with
  | Fin q => Fin (- q)
  | PosInf => NegInf
  | NegInf => PosInf
  | NaN => NaN
  end.

(** [a + b] *)
Definition add (a b : number) : number :=
  match a, b with
  | NaN, _ | _, NaN => NaN
  | Fin p, Fin q => Fin (p + q)
  | PosInf, NegInf | NegInf, PosInf => NaN
  | PosInf, _ | _, PosInf => PosInf
  | NegInf, _ | _, NegInf => NegInf
  end.

(** [a - b] *)
Definition sub (a b : number) : number := add a (neg b).

(** [a * b]; zero times an infinity is [NaN]. *)
Definition mul (a b : number) : number :=
  match a, b with
  | NaN, _ | _, NaN => NaN
  | Fin p, Fin q => Fin (p * q)
  | Fin p, PosInf | PosInf, Fin p => signed_inf (Qsign p)
  | Fin p, NegInf | NegInf, Fin p => signed_inf (flip (Qsign p))
  | PosInf, PosInf | NegInf, NegInf => PosInf
  | PosInf, NegInf | NegInf, PosInf => NegInf
  end.

(** [a / b]; a finite value over zero is an infinity of the dividend's
    sign, zero over zero is [NaN]. *)
Definition div (a b : number) : number :=
  match a, b with
  | NaN, _ | _, NaN => NaN
  | Fin p, Fin q =>
      if Qeq_bool q 0 then signed_inf (Qsign p) else Fin (p / q)
  | Fin _, PosInf | Fin _, NegInf => Fin 0
  | PosInf, Fin q =>
      match Qsign q with Lt => NegInf | _ => PosInf end
  | NegInf, Fin q =>
      match Qsign q with Lt => PosInf | _ => NegInf end
  | _, _ => NaN
  end.

(** Truncation toward zero. *)
Definition Qtrunc (q : Q) : Z :=
  if Qle_bool 0 q then Qfloor q else Qceiling q.

(** [a % b]: the remainder has the sign of the dividend. *)
Definition rem (a b : number) : number :=
  match a, b with
  | Fin p, Fin q =>
      if Qeq_bool q 0 then NaN
      else Fin (p - q * inject_Z (Qtrunc (p / q)))
  | Fin p, PosInf | Fin p, NegInf => Fin p
  | _, _ => NaN
  end.

(** [a < b]; every comparison with [NaN] is false. *)
Definition lt (a b : number) : bool :=
  match a, b with
  | NaN, _ | _, NaN => false
  | Fin p, Fin q => Qlt_bool p q
  | NegInf, NegInf => false
  | NegInf, _ => true
  | _, PosInf => match a with PosInf => false | _ => true end
  | _, _ => false
  end.

(** [a <= b] *)
Definition le (a b : number) : bool :=
  match a, b with
  | NaN, _ | _, NaN => false
  | Fin p, Fin q => Qle_bool p q
  | NegInf, _ => true
  | _, PosInf => true
  | _, _ => false
  end.

(** [Math.floor] *)
Definition Math_floor (a : number) : number :=
  match a with
  | Fin q => of_Z (Qfloor q)
  | other => other
  end.

(** [Math.max] of two arguments. *)
Definition Math_max (a b : number) : number :=
  match a, b with
  | NaN, _ | _, NaN => NaN
  | PosInf, _ | _, PosInf => PosInf
  | NegInf, v | v, NegInf => v
  | Fin p, Fin q => Fin (if Qle_bool p q then q else p)
  end.

(** The least natural number whose square is at least [n]. *)
Definition Zceil_sqrt (n : Z) : Z :=
  let s := Z.sqrt n in
  if (s * s =? n)%Z then s else (s + 1)%Z.

(** [Math.ceil(Math.sqrt(a))].  The square root of a rational is not
    rational in general, so the two calls are embedded together: for a
    finite [q >= 0] the result is the least integer [g >= 0] with
    [q <= g * g] (lemma [Math_ceil_sqrt_spec]). *)
Definition Math_ceil_sqrt (a : number) : number :=
  match a with
  | Fin q => if Qlt_bool q 0 then NaN else of_Z (Zceil_sqrt (Qceiling q))
  | PosInf => PosInf
  | NegInf | NaN => NaN
  end.

(** Truthiness of a number, as [||] and [if] test it. *)
Definition truthy (a : number) : bool :=
  match a with
  | Fin q => negb (Qeq_bool q 0)
  | PosInf | NegInf => true
  | NaN => false
  end.

(** [arr[k]] for a number [k]: an element when [k] is an integer index
    inside the array, [undefined] ([None]) otherwise. *)
Definition array_get (A : Type) (arr : list A) (k : number) : option A :=
  match k with
  | Fin q =>
      if Qeq_bool q (inject_Z (Qfloor q)) && (0 <=? Qfloor q)%Z
      then nth_error arr (Z.to_nat (Qfloor q))
      else None
  | _ => None
  end.

End JS.

Import JS.

Declare Scope js_scope.
Delimit Scope js_scope with js.
Bind Scope js_scope with number.
Notation "a + b" := (add a b) : js_scope.
Notation "a - b" := (sub a b) : js_scope.
Notation "a * b" := (mul a b) : js_scope.
Notation "a / b" := (div a b) : js_scope.
Notation "a 'mod' b" := (rem a b) : js_scope.
Notation "a <? b" := (lt a b) : js_scope.
Notation "a == b" := (num_eq a b) : js_scope.

(** ** Outcomes of a call *)

(** A call returns a value, throws (a rejected promise included), or never
    completes (an unbounded loop, a promise that is never settled). *)
Inductive outcome (A : Type) : Type :=
| Returns (a : A)
| Throws (e : string)
| Diverges.

Arguments Throws {A} e.
Arguments Diverges {A}.

(** ** Data model *)

Record File : Type := {
  name : string;
  mime : string   (* [file.type] *)
}.

Inductive AssetType : Type := svg | png.

Record ShapeAsset : Type := {
  id : string;
  file : File;
  type : AssetType;
  dataUrl : string;
  svgContent : option string;
  width : number;
  height : number
}.

Record PatternOptions : Type := {
  shapeCount : number;
  offsetIntensity : number;
  enableRotation : bool;
  canvasSize : number
}.

Record PlacedShape : Type := {
  asset : ShapeAsset;
  x : number;
  y : number;
  rotation : number;
  scale : number
}.

(** ** Layout engine *)

(** Computations that draw from [Math.random]: the state is the number of
    draws made so far. *)
Definition Rand (A : Type) : Type := nat -> outcome (A * nat).

Definition ret (A : Type) (a : A) : Rand A := fun n => Returns (a, n).

Definition bind (A B : Type) (m : Rand A) (k : A -> Rand B) : Rand B :=
  fun n =>
    match m n with
    | Returns (a, n') => k a n'
    | Throws e => Throws e
    | Diverges => Diverges
    end.

Definition throw (A : Type) (e : string) : Rand A := fun _ => Throws e.
Arguments throw {A} e.

Notation "v <- m ;; k" := (bind m (fun v => k))
  (at level 61, m at next level, right associativity).

Definition value (A : Type) (r : outcome (A * nat)) : outcome A :=
  match r with
  | Returns (a, _) => Returns a
  | Throws e => Throws e
  | Diverges => Diverges
  end.

(** Number of times the body of [for (let i = 0; i < n; i++)] runs;
    [None] when the guard never fails (lemma [loop_bound_guard]). *)
Definition loop_bound (n : number) : option nat :=
  match n with
  | Fin q => Some (Z.to_nat (Qceiling q))
  | PosInf => None
  | NegInf | NaN => Some 0%nat
  end.

Section Layout.

(** The values successive calls of [Math.random()] yield. *)
Variable random : nat -> Q.

(** The asset pool the callback closes over. *)
Variable shapes : list ShapeAsset.

Definition Math_random : Rand number := fun n => Returns (Fin (random n), S n).

Section Body.

Variable opts : PatternOptions.

Definition gridSize : number := Math_ceil_sqrt (shapeCount opts).
Definition cellSize : number := (canvasSize opts / gridSize)%js.

(** One iteration of the placement loop. *)
Definition place (i : nat) : Rand PlacedShape :=
  pick <- Math_random ;;
  let asset := array_get shapes (Math_floor (pick * of_nat (List.length shapes))%js) in
  let row := Math_floor (of_nat i / gridSize)%js in
  let col := (of_nat i mod gridSize)%js in
  let baseCenterX := (col * cellSize + cellSize / Fin 2)%js in
  let baseCenterY := (row * cellSize + cellSize / Fin 2)%js in
  let maxOffset := (cellSize * offsetIntensity opts)%js in
  rx <- Math_random ;;
  let offsetX := ((rx - Fin 0.5) * maxOffset)%js in
  ry <- Math_random ;;
  let offsetY := ((ry - Fin 0.5) * maxOffset)%js in
  let x := (baseCenterX + offsetX)%js in
  let y := (baseCenterY + offsetY)%js in
  rotation <- (if enableRotation opts
               then (r <- Math_random ;; ret (r * Fin 360)%js)
               else ret (Fin 0)) ;;
  match asset with
  | None => throw "TypeError: Cannot read properties of undefined"
  | Some asset =>
      let maxDim := Math_max (width asset) (height asset) in
      let targetSize := (cellSize * Fin 0.6)%js in
      let scale := (targetSize / maxDim)%js in
      ret {| asset := asset; x := x; y := y; rotation := rotation; scale := scale |}
  end.

(** [k] further iterations starting at index [i], pushing onto [layout]. *)
Fixpoint place_loop (k : nat) (i : nat) (layout : list PlacedShape)
  : Rand (list PlacedShape) :=
  match k with
  | O => ret layout
  | S k' => p <- place i ;; place_loop k' (S i) (layout ++ [p])
  end.

End Body.

(** [generatePatternLayout(opts)].  The loop runs [loop_bound shapeCount]
    times; when the guard never fails the call does not return (no
    iteration throws for draws in the unit interval, lemma [place_total]). *)
Definition generatePatternLayout (opts : PatternOptions)
  : outcome (list PlacedShape) :=
  match shapes with
  | [] => Returns []
  | _ =>
      match loop_bound (shapeCount opts) with
      | None => Diverges
      | Some k => value (place_loop opts k 0 [] 0%nat)
      end
  end.

End Layout.

(** ** Strings and number conversions *)

Module Str.

Definition dq : string := String (ascii_of_nat 34) EmptyString.
Definition nl : string := String (ascii_of_nat 10) EmptyString.

(** [s.includes(sub)] *)
Fixpoint includes (s sub : string) : bool :=
  String.prefix sub s
  || match s with
     | EmptyString => false
     | String _ s' => includes s' sub
     end.

(** [s.split(sep)] for a one-character separator. *)
Fixpoint split (sep : ascii) (s : string) : list string :=
  match s with
  | EmptyString => [EmptyString]
  | String c s' =>
      if Ascii.eqb c sep then EmptyString :: split sep s'
      else match split sep s' with
           | [] => [String c EmptyString]
           | w :: ws => String c w :: ws
           end
  end.

Definition is_digit (c : ascii) : bool :=
  ((48 <=? nat_of_ascii c) && (nat_of_ascii c <=? 57))%nat.

Definition digit_value (c : ascii) : Z := Z.of_nat (nat_of_ascii c - 48).

(** Value of [c] as a digit in base [b], if it is one. *)
Definition radix_digit (b : Z) (c : ascii) : option Z :=
  let n := nat_of_ascii c in
  let v := if ((48 <=? n) && (n <=? 57))%nat then Some (Z.of_nat (n - 48))
           else if ((97 <=? n) && (n <=? 102))%nat then Some (Z.of_nat (n - 87))
           else if ((65 <=? n) && (n <=? 70))%nat then Some (Z.of_nat (n - 55))
           else None in
  match v with
  | Some d => if (d <? b)%Z then Some d else None
  | None => None
  end.

(** ASCII white space and line terminators. *)
Definition is_space (c : ascii) : bool :=
  let n := nat_of_ascii c in
  ((n =? 32) || ((9 <=? n) && (n <=? 13)))%nat.

Fixpoint trim_start (s : string) : string :=
  match s with
  | String c s' => if is_space c then trim_start s' else s
  | EmptyString => s
  end.

Fixpoint all_space (s : string) : bool :=
  match s with
  | String c s' => is_space c && all_space s'
  | EmptyString => true
  end.

(** The longest run of decimal digits at the head of [s]: its value (on
    top of [acc]), its length, and what follows. *)
Fixpoint read_digits (acc : Z) (n : nat) (s : string) : Z * nat * string :=
  match s with
  | String c s' =>
      if is_digit c then read_digits (10 * acc + digit_value c) (S n) s'
      else (acc, n, s)
  | EmptyString => (acc, n, s)
  end.

(** An exponent part [e], [e+] or [e-] followed by at least one digit. *)
Definition read_exponent (s : string) : Z * string :=
  match s with
  | String c s' =>
      if Ascii.eqb c "e" || Ascii.eqb c "E" then
        let '(sign, s'') :=
          match s' with
          | String "+" t => (1%Z, t)
          | String "-" t => ((-1)%Z, t)
          | _ => (1%Z, s')
          end in
        let '(v, n, rest) := read_digits 0 0 s'' in
        match n with
        | O => (0%Z, s)
        | _ => ((sign * v)%Z, rest)
        end
      else (0%Z, s)
  | EmptyString => (0%Z, s)
  end.

Fixpoint drop (n : nat) (s : string) : string :=
  match n, s with
  | S n', String _ s' => drop n' s'
  | _, _ => s
  end.

(** The longest prefix of [s] that is an unsigned decimal literal
    ([Infinity], [12], [12.], [12.5], [.5], each but the first with an
    optional exponent): its value and what follows. *)
Definition read_unsigned (s : string) : option (number * string) :=
  if String.prefix "Infinity" s then Some (PosInf, drop 8 s)
  else
    let '(ip, ni, r1) := read_digits 0 0 s in
    let '(fp, nf, r2) :=
      match r1 with
      | String "." r =>
          let '(fp, nf, r2) := read_digits 0 0 r in
          match ni, nf with
          | O, O => (0%Z, O, r1)
          | _, _ => (fp, nf, r2)
          end
      | _ => (0%Z, O, r1)
      end in
    match ni, nf with
    | O, O => None
    | _, _ =>
        let '(e, r3) := read_exponent r2 in
        Some (Fin ((inject_Z ip + inject_Z fp / inject_Z (10 ^ Z.of_nat nf))
                   * Qpower 10 e), r3)
    end.

(** The same with an optional sign in front. *)
Definition read_decimal (s : string) : option (number * string) :=
  match s with
  | String "-" s' =>
      match read_unsigned s' with
      | Some (v, r) => Some (neg v, r)
      | None => None
      end
  | String "+" s' => read_unsigned s'
  | _ => read_unsigned s
  end.

(** Digits of base [b] up to the end of the string (white space may
    follow); [None] when another character is met or there is no digit. *)
Fixpoint read_radix (b : Z) (acc : Z) (n : nat) (s : string) : option Z :=
  match s with
  | String c s' =>
      match radix_digit b c with
      | Some d => read_radix b (b * acc + d) (S n) s'
      | None => match n with
                | O => None
                | _ => if all_space s then Some acc else None
                end
      end
  | EmptyString => match n with O => None | _ => Some acc end
  end.

(** [Number(s)] on a string: surrounding white space is dropped, the
    empty string is [0], a decimal literal or a [0x], [0o], [0b] integer
    is its value, anything else is [NaN]. *)
Definition Number (s : string) : number :=
  let t := trim_start s in
  let radix b r :=
    match read_radix b 0 0 r with
    | Some v => of_Z v
    | None => NaN
    end in
  match t with
  | EmptyString => Fin 0
  | String "0" (String "x" r) | String "0" (String "X" r) => radix 16%Z r
  | String "0" (String "o" r) | String "0" (String "O" r) => radix 8%Z r
  | String "0" (String "b" r) | String "0" (String "B" r) => radix 2%Z r
  | _ =>
      match read_decimal t with
      | Some (v, rest) => if all_space rest then v else NaN
      | None => NaN
      end
  end.

(** [parseFloat(s)]: the value of the longest decimal literal that starts
    [s] after leading white space, [NaN] when there is none. *)
Definition parseFloat (s : string) : number :=
  match read_decimal (trim_start s) with
  | Some (v, _) => v
  | None => NaN
  end.

Definition digit_char (d : Z) : ascii := ascii_of_nat (48 + Z.to_nat d).

Fixpoint all_digits (s : string) : bool :=
  match s with
  | String c s' => is_digit c && all_digits s'
  | EmptyString => true
  end.

(** Decimal digits of a natural number. *)
Definition show_N (n : Z) : string :=
  DecimalString.NilZero.string_of_uint (N.to_uint (Z.to_N n)).

(** The [d] lowest decimal digits of [v], zero-padded. *)
Fixpoint fixed_digits (d : nat) (v : Z) : string :=
  match d with
  | O => EmptyString
  | S d' => fixed_digits d' (v / 10) ++ String (digit_char (v mod 10)) EmptyString
  end.

(** Digits of the fractional part [r] (with [0 <= r < 1]), at most
    [fuel] of them. *)
Fixpoint frac_digits (fuel : nat) (r : Q) : string :=
  match fuel with
  | O => EmptyString
  | S f =>
      if Qeq_bool r 0 then EmptyString
      else
        let t := r * 10 in
        let d := Qfloor t in
        String (digit_char d) (frac_digits f (t - inject_Z d))
  end.

(** [String(v)] and [`${v}`] for a number.  Integers and values whose
    decimal expansion ends within twenty places are printed in full, as
    JavaScript prints them between 1e-6 and 1e21; a longer expansion is
    cut there. *)
Definition toString (v : number) : string :=
  match v with
  | NaN => "NaN"
  | PosInf => "Infinity"
  | NegInf => "-Infinity"
  | Fin q =>
      let a := Qabs q in
      let i := Qfloor a in
      let f := frac_digits 20 (a - inject_Z i) in
      ((if Qlt_bool q 0 then "-" else "")
       ++ show_N i
       ++ match f with EmptyString => "" | _ => "." ++ f end)%string
  end.

(** [`${v}`] for a value that may be [undefined]. *)
Definition toString_opt (v : option number) : string :=
  match v with
  | Some n => toString n
  | None => "undefined"
  end.

(** [v.toFixed(d)]: below 1e21 the value is rounded to [d] decimals, ties
    away from zero, and printed with exactly [d] digits after the point. *)
Definition toFixed (d : nat) (v : number) : string :=
  match v with
  | Fin q =>
      if Qle_bool (inject_Z (10 ^ 21)) (Qabs q) then toString v
      else
        let n := Qfloor (Qabs q * inject_Z (10 ^ Z.of_nat d) + (1 # 2)) in
        let m := (show_N (n / 10 ^ Z.of_nat d)
                  ++ match d with
                     | O => ""
                     | _ => "." ++ fixed_digits d n
                     end)%string in
        ((if Qlt_bool q 0 then "-" else "") ++ m)%string
  | _ => toString v
  end.

End Str.

Import Str.

(** ** The browser *)

(** What [doc.querySelector('svg')] exposes of the root element. *)
Record SvgElement : Type := {
  attributes : list (string * string);
  innerHTML : string
}.

(** [el.getAttribute(k)]; [None] is [null]. *)
Fixpoint lookup (k : string) (l : list (string * string)) : option string :=
  match l with
  | [] => None
  | (k', v) :: l' => if String.eqb k k' then Some v else lookup k l'
  end.

Definition getAttribute (el : SvgElement) (k : string) : option string :=
  lookup k (attributes el).

(** The platform services the component calls. *)
Class Browser : Type := {
  (** [FileReader.readAsDataURL]: the result, or [None] on the error event. *)
  FileReader_readAsDataURL : File -> option string;
  (** [FileReader.readAsText], likewise. *)
  FileReader_readAsText : File -> option string;
  (** [new Image()] with [src] set: the [width] and [height] read in
      [onload], or [None] when the load event never fires. *)
  Image_onload : string -> option (nat * nat);
  (** [new DOMParser().parseFromString(s, 'image/svg+xml').querySelector('svg')] *)
  DOMParser_svg : string -> option SvgElement;
  (** [Date.now()] while the file at the given batch index is processed. *)
  Date_now : nat -> Z
}.

(** ** Asset normalizer *)

(** [v || d] for a string that may be [null]. *)
Definition or_string (v : option string) (d : string) : string :=
  match v with
  | Some (String c s) => String c s
  | _ => d
  end.

(** [v || d] for a number that may be [undefined]. *)
Definition or_number (v : option number) (d : number) : number :=
  match v with
  | Some n => if truthy n then n else d
  | None => d
  end.

(** [const [, , w, h] = viewBox.split(' ').map(Number)] *)
Definition viewBox_size (viewBox : string) : option number * option number :=
  let parts := map Number (split " " viewBox) in
  (nth_error parts 2, nth_error parts 3).

Section Component.

Context {B : Browser}.

Local Open Scope string_scope.

Definition readFileAsDataURL (f : File) : outcome string :=
  match FileReader_readAsDataURL f with
  | Some url => Returns url
  | None => Throws "ProgressEvent"
  end.

Definition readFileAsText (f : File) : outcome string :=
  match FileReader_readAsText f with
  | Some text => Returns text
  | None => Throws "ProgressEvent"
  end.

Definition extractSVGDimensions (svgContent : string) : number * number :=
  match DOMParser_svg svgContent with
  | Some el =>
      match getAttribute el "viewBox" with
      | Some (String c s) =>
          let '(w, h) := viewBox_size (String c s) in
          (or_number w (Fin 100), or_number h (Fin 100))
      | _ =>
          let w := parseFloat (or_string (getAttribute el "width") "100") in
          let h := parseFloat (or_string (getAttribute el "height") "100") in
          (w, h)
      end
  | None => (Fin 100, Fin 100)
  end.

Definition getImageDimensions (dataUrl : string) : outcome (number * number) :=
  match Image_onload dataUrl with
  | Some (w, h) => Returns (of_nat w, of_nat h)
  | None => Diverges
  end.

(** [loadShapes] is an async function that also raises alerts: a
    computation takes the alerts shown so far and gives them back,
    extended, with its outcome. *)
Definition Load (A : Type) : Type := list string -> list string * outcome A.

Definition lret (A : Type) (a : A) : Load A := fun log => (log, Returns a).

Definition lbind (A C : Type) (m : Load A) (k : A -> Load C) : Load C :=
  fun log =>
    match m log with
    | (log', Returns a) => k a log'
    | (log', Throws e) => (log', Throws e)
    | (log', Diverges) => (log', Diverges)
    end.

Definition await (A : Type) (o : outcome A) : Load A := fun log => (log, o).

Definition alert (msg : string) : Load unit :=
  fun log => ((log ++ [msg])%list, Returns tt).

Notation "v <~ m ;; k" := (lbind m (fun v => k))
  (at level 61, m at next level, right associativity).

(** The body of the loop for the file at index [i]: [None] for
    [continue], the asset to push otherwise.  The initial [100] of
    [width] and [height] is overwritten on both branches. *)
Definition load_file (file : File) (i : nat) : Load (option ShapeAsset) :=
  let fileType := mime file in
  if negb (includes fileType "svg") && negb (includes fileType "png") then
    _ <~ alert ("Unsupported file type: " ++ name file) ;;
    lret None
  else
    dataUrl <~ await (readFileAsDataURL file) ;;
    let type := if includes fileType "svg" then svg else png in
    dims <~ (match type with
             | svg =>
                 svgContent <~ await (readFileAsText file) ;;
                 lret (Some svgContent, extractSVGDimensions svgContent)
             | png =>
                 dims <~ await (getImageDimensions dataUrl) ;;
                 lret (None, dims)
             end) ;;
    let '(svgContent, (width, height)) := dims in
    lret (Some {| id := "shape-" ++ toString (of_Z (Date_now i)) ++ "-"
                        ++ toString (of_nat i);
                  file := file;
                  type := type;
                  dataUrl := dataUrl;
                  svgContent := svgContent;
                  width := width;
                  height := height |}).

Fixpoint load_loop (files : list File) (i : nat) (newShapes : list ShapeAsset)
  : Load (list ShapeAsset) :=
  match files with
  | [] => lret newShapes
  | file :: rest =>
      r <~ load_file file i ;;
      load_loop rest (S i)
        (match r with
         | Some a => (newShapes ++ [a])%list
         | None => newShapes
         end)
  end.

(** The session state [loadShapes] acts on: the pool and the alerts the
    user has been shown. *)
Record Session : Type := {
  pool : list ShapeAsset;
  alerts : list string
}.

(** [loadShapes(files)]: the pool is replaced by [[...prev, ...newShapes]]
    once the loop has completed, and is left alone when it has not. *)
Definition loadShapes (files : list File) (s : Session) : Session * outcome unit :=
  match load_loop files 0 [] (alerts s) with
  | (log, Returns newShapes) =>
      ({| pool := (pool s ++ newShapes)%list; alerts := log |}, Returns tt)
  | (log, Throws e) => ({| pool := pool s; alerts := log |}, Throws e)
  | (log, Diverges) => ({| pool := pool s; alerts := log |}, Diverges)
  end.

(** ** Vector renderer *)

(** The [transform] template of a placement. *)
Definition transform_of (shape : PlacedShape) : string :=
  "translate(" ++ toFixed 2 (x shape) ++ ", " ++ toFixed 2 (y shape)
  ++ ") rotate(" ++ toFixed 2 (rotation shape)
  ++ ") scale(" ++ toFixed 4 (scale shape) ++ ")".

(** [-v / 2] for a value that may be [undefined]. *)
Definition neg_half (v : option number) : number :=
  match v with
  | Some n => (neg n / Fin 2)%js
  | None => NaN
  end.

(** What one placement appends to the document. *)
Definition render_shape (shape : PlacedShape) : string :=
  let asset := asset shape in
  let transform := transform_of shape in
  let embed_image :=
    "  <image " ++ nl
    ++ "    href=" ++ dq ++ dataUrl asset ++ dq ++ " " ++ nl
    ++ "    width=" ++ dq ++ toString (width asset) ++ dq ++ " " ++ nl
    ++ "    height=" ++ dq ++ toString (height asset) ++ dq ++ " " ++ nl
    ++ "    transform=" ++ dq ++ transform
    ++ " translate(" ++ toString (neg (width asset) / Fin 2)%js ++ ", "
    ++ toString (neg (height asset) / Fin 2)%js ++ ")" ++ dq ++ nl
    ++ "  />" ++ nl in
  match type asset, svgContent asset with
  | svg, Some (String c s) =>
      match DOMParser_svg (String c s) with
      | Some svgEl =>
          let innerContent := innerHTML svgEl in
          let viewBox :=
            or_string (getAttribute svgEl "viewBox")
              ("0 0 " ++ toString (width asset) ++ " " ++ toString (height asset)) in
          let '(vbW, vbH) := viewBox_size viewBox in
          "  <g transform=" ++ dq ++ transform
          ++ " translate(" ++ toString (neg_half vbW) ++ ", "
          ++ toString (neg_half vbH) ++ ")" ++ dq ++ ">" ++ nl
          ++ "    <svg viewBox=" ++ dq ++ viewBox ++ dq
          ++ " width=" ++ dq ++ toString_opt vbW ++ dq
          ++ " height=" ++ dq ++ toString_opt vbH ++ dq ++ ">" ++ nl
          ++ "      " ++ innerContent ++ nl
          ++ "    </svg>" ++ nl
          ++ "  </g>" ++ nl
      | None => ""
      end
  | _, _ => embed_image
  end.

(** The text [svgContent] starts with. *)
Definition svg_header (size : number) : string :=
  let sz := toString size in
  "<?xml version=" ++ dq ++ "1.0" ++ dq ++ " encoding=" ++ dq ++ "UTF-8" ++ dq
  ++ "?>" ++ nl
  ++ "<svg width=" ++ dq ++ sz ++ dq ++ " height=" ++ dq ++ sz ++ dq
  ++ " viewBox=" ++ dq ++ "0 0 " ++ sz ++ " " ++ sz ++ dq
  ++ " xmlns=" ++ dq ++ "http://www.w3.org/2000/svg" ++ dq
  ++ " xmlns:xlink=" ++ dq ++ "http://www.w3.org/1999/xlink" ++ dq ++ ">" ++ nl
  ++ "  <rect width=" ++ dq ++ sz ++ dq ++ " height=" ++ dq ++ sz ++ dq
  ++ " fill=" ++ dq ++ "white" ++ dq ++ "/>" ++ nl.

Definition renderToSVG (layout : list PlacedShape) (size : number) : string :=
  fold_left (fun svgContent shape => svgContent ++ render_shape shape)
    layout (svg_header size)
  ++ "</svg>".

End Component.

(** ** Raster renderer *)

(** [Math.PI]: the binary64 number nearest to pi, as a fraction. *)
Definition Math_PI : Q := 884279719003555 # 281474976710656.

(** A call made on a canvas element or on its 2D context.  An image is
    named by its [src]. *)
Inductive CanvasCall : Type :=
| SetWidth (w : number)
| SetHeight (h : number)
| SetFillStyle (style : string)
| FillRect (x0 y0 w h : number)
| Save
| Translate (tx ty : number)
| Rotate (angle : number)
| Scale (sx sy : number)
| DrawImage (src : string) (dx dy dw dh : number)
| Restore.

(** A canvas element: whether [getContext('2d')] gives a context, and
    the calls made on the element and its context so far. *)
Record Canvas : Type := {
  context2d : bool;
  calls : list CanvasCall
}.

(** [Map.prototype.set] on a map from strings to strings, kept in
    insertion order. *)
Fixpoint Map_set (m : list (string * string)) (k v : string)
  : list (string * string) :=
  match m with
  | [] => [(k, v)]
  | (k', v') :: m' =>
      if String.eqb k k' then (k, v) :: m' else (k', v') :: Map_set m' k v
  end.

(** [Map.prototype.has]; [Map.prototype.get] is [lookup]. *)
Definition Map_has (m : list (string * string)) (k : string) : bool :=
  match lookup k m with
  | Some _ => true
  | None => false
  end.

(** [canvas.width = size; canvas.height = size] and the white fill. *)
Definition background_calls (size : number) : list CanvasCall :=
  [SetWidth size; SetHeight size; SetFillStyle "#ffffff";
   FillRect (Fin 0) (Fin 0) size size].

(** The local frame of a placement: [save], [translate], [rotate] (degrees
    to radians), [scale]. *)
Definition frame_calls (shape : PlacedShape) : list CanvasCall :=
  [Save;
   Translate (x shape) (y shape);
   Rotate (rotation shape * Fin Math_PI / Fin 180)%js;
   Scale (scale shape) (scale shape)].

(** [drawImage] centered at the origin of the frame, then [restore]. *)
Definition paint_calls (shape : PlacedShape) (img : string) : list CanvasCall :=
  [DrawImage img
     (neg (width (asset shape)) / Fin 2)%js
     (neg (height (asset shape)) / Fin 2)%js
     (width (asset shape)) (height (asset shape));
   Restore].

(** What a call of [renderToCanvas] leaves: the canvas, the [src] given
    to each [new Image()], and how the promise settles. *)
Record Rendering : Type := {
  canvas_after : Canvas;
  requested_images : list string;
  completion : outcome unit
}.

Section Raster.

Context {B : Browser}.

(** [loadImage(src)]: resolved with the image on its load event,
    rejected with the event on its error event. *)
Definition loadImage (src : string) : outcome string :=
  match Image_onload src with
  | Some _ => Returns src
  | None => Throws "Event"
  end.

(** The first loop of [renderToCanvas]: one [loadImage] per asset id that
    [imageCache] does not hold yet. *)
Fixpoint load_images (layout : list PlacedShape)
  (imageCache : list (string * string)) (requested : list string)
  : list string * outcome (list (string * string)) :=
  match layout with
  | [] => (requested, Returns imageCache)
  | shape :: rest =>
      if Map_has imageCache (id (asset shape))
      then load_images rest imageCache requested
      else
        let src := dataUrl (asset shape) in
        match loadImage src with
        | Returns img =>
            load_images rest (Map_set imageCache (id (asset shape)) img)
              (requested ++ [src])
        | Throws e => (requested ++ [src], Throws e)
        | Diverges => (requested ++ [src], Diverges)
        end
  end.

(** The second loop: [drawImage] throws when the cache has no image for
    the asset id. *)
Fixpoint draw_shapes (layout : list PlacedShape)
  (imageCache : list (string * string)) (done : list CanvasCall)
  : list CanvasCall * outcome unit :=
  match layout with
  | [] => (done, Returns tt)
  | shape :: rest =>
      match lookup (id (asset shape)) imageCache with
      | Some img =>
          draw_shapes rest imageCache
            (done ++ frame_calls shape ++ paint_calls shape img)
      | None =>
          (done ++ frame_calls shape,
           Throws "TypeError: Failed to execute 'drawImage'")
      end
  end.

Definition renderToCanvas (layout : list PlacedShape) (canvas : Canvas)
  (size : number) : Rendering :=
  if negb (context2d canvas) then
    {| canvas_after := canvas; requested_images := []; completion := Returns tt |}
  else
    let cleared := calls canvas ++ background_calls size in
    match load_images layout [] [] with
    | (requested, Returns imageCache) =>
        let '(drawn, r) := draw_shapes layout imageCache cleared in
        {| canvas_after := {| context2d := true; calls := drawn |};
           requested_images := requested;
           completion := r |}
    | (requested, Throws e) =>
        {| canvas_after := {| context2d := true; calls := cleared |};
           requested_images := requested;
           completion := Throws e |}
    | (requested, Diverges) =>
        {| canvas_after := {| context2d := true; calls := cleared |};
           requested_images := requested;
           completion := Diverges |}
    end.

End Raster.

(** ** The component state and its handlers *)

(** [removeShape(id)]: [setShapes(shapes.filter(s => s.id !== id))]. *)
Definition removeShape (target : string) (s : Session) : Session :=
  {| pool := filter (fun a => negb (String.eqb (id a) target)) (pool s);
     alerts := alerts s |}.

(** The state of the component: the pool and the alerts shown, the current
    pattern, the options, the busy flag, the two canvas references and the
    lines written by [console.error]. *)
Record App : Type := {
  session : Session;
  pattern : option (list PlacedShape);
  options : PatternOptions;
  isGenerating : bool;
  previewCanvas : option Canvas;
  fullCanvas : option Canvas;
  console : list (string * string)
}.

Definition with_alert (a : App) (msg : string) : App :=
  {| session := {| pool := pool (session a);
                   alerts := alerts (session a) ++ [msg] |};
     pattern := pattern a; options := options a;
     isGenerating := isGenerating a;
     previewCanvas := previewCanvas a; fullCanvas := fullCanvas a;
     console := console a |}.

Definition setIsGenerating (b : bool) (a : App) : App :=
  {| session := session a; pattern := pattern a; options := options a;
     isGenerating := b;
     previewCanvas := previewCanvas a; fullCanvas := fullCanvas a;
     console := console a |}.

Definition setPattern (layout : list PlacedShape) (a : App) : App :=
  {| session := session a; pattern := Some layout; options := options a;
     isGenerating := isGenerating a;
     previewCanvas := previewCanvas a; fullCanvas := fullCanvas a;
     console := console a |}.

Definition with_canvases (preview full : option Canvas) (a : App) : App :=
  {| session := session a; pattern := pattern a; options := options a;
     isGenerating := isGenerating a;
     previewCanvas := preview; fullCanvas := full;
     console := console a |}.

(** The [catch] block followed by the [finally] block. *)
Definition caught (e : string) (a : App) : App :=
  let logged :=
    {| session := session a; pattern := pattern a; options := options a;
       isGenerating := isGenerating a;
       previewCanvas := previewCanvas a; fullCanvas := fullCanvas a;
       console := console a ++ [("Error generating pattern:", e)] |} in
  setIsGenerating false
    (with_alert logged "Error generating pattern. Please try again.").

(** [await renderToCanvas(layout, ref.current, size)] guarded by
    [if (ref.current)]. *)
Definition render_if_mounted {B : Browser} (layout : list PlacedShape)
  (ref : option Canvas) (size : number) : option Canvas * outcome unit :=
  match ref with
  | Some c =>
      let r := renderToCanvas layout c size in
      (Some (canvas_after r), completion r)
  | None => (None, Returns tt)
  end.

Section Handlers.

Context {B : Browser}.

(** The values successive calls of [Math.random()] yield. *)
Variable random : nat -> Q.

Definition generatePattern (a : App) : App * outcome unit :=
  match pool (session a) with
  | [] => (with_alert a "Please upload at least one shape", Returns tt)
  | _ =>
      let busy := setIsGenerating true a in
      match generatePatternLayout random (pool (session a)) (options a) with
      | Diverges => (busy, Diverges)
      | Throws e => (caught e busy, Returns tt)
      | Returns layout =>
          let placed := setPattern layout busy in
          match render_if_mounted layout (previewCanvas placed) (Fin 400) with
          | (preview, Diverges) =>
              (with_canvases preview (fullCanvas placed) placed, Diverges)
          | (preview, Throws e) =>
              (caught e (with_canvases preview (fullCanvas placed) placed),
               Returns tt)
          | (preview, Returns _) =>
              match render_if_mounted layout (fullCanvas placed)
                      (canvasSize (options a)) with
              | (full, Diverges) => (with_canvases preview full placed, Diverges)
              | (full, Throws e) =>
                  (caught e (with_canvases preview full placed), Returns tt)
              | (full, Returns _) =>
                  (setIsGenerating false (with_canvases preview full placed),
                   Returns tt)
              end
          end
      end
  end.

End Handlers.

(** What a click on a generated download link saves. *)
Record Download : Type := {
  filename : string;
  mediaType : string;
  content : string
}.

(** [exportSVG()], with the value [Date.now()] returns; [None] when
    nothing is downloaded. *)
Definition exportSVG {B : Browser} (now : Z) (a : App) : option Download :=
  match pattern a with
  | None => None
  | Some layout =>
      Some {| filename := ("brand-pattern-" ++ toString (of_Z now) ++ ".svg")%string;
              mediaType := "image/svg+xml";
              content := renderToSVG layout (canvasSize (options a)) |}
  end.

(** [exportPNG()], with [canvas.toBlob(..., 'image/png')] as [toBlob]
    ([None] for a null blob) and the value [Date.now()] returns. *)
Definition exportPNG (toBlob : Canvas -> option string) (now : Z) (a : App)
  : option Download :=
  match fullCanvas a, pattern a with
  | Some c, Some _ =>
      match toBlob c with
      | Some blob =>
          Some {| filename := ("brand-pattern-" ++ toString (of_Z now) ++ ".png")%string;
                  mediaType := "image/png";
                  content := blob |}
      | None => None
      end
  | _, _ => None
  end.

(** ** Vocabulary of the statements *)

(** [Math.random()] yields values in the half-open unit interval. *)
Definition unit_interval (random : nat -> Q) : Prop :=
  forall k : nat, 0 <= random k < 1.

(** A valid options record: a positive integer count [n], an offset
    intensity [o] in the closed unit interval and a positive canvas
    size [c]. *)
Definition valid_options (opts : PatternOptions) (n : Z) (o c : Q) : Prop :=
  (shapeCount opts == of_Z n)%js /\ (0 < n)%Z
  /\ offsetIntensity opts = Fin o /\ 0 <= o <= 1
  /\ canvasSize opts = Fin c /\ 0 < c.


(** A file whose media kind matches svg or png. *)
Definition supported (f : File) : bool :=
  includes (mime f) "svg" || includes (mime f) "png".

(** The alert raised for a file that is not supported. *)
Definition warning (f : File) : string :=
  ("Unsupported file type: " ++ name f)%string.

(** A supported file the browser can read: its data URL is delivered,
    and so is its text (svg) or its decoded size (png). *)
Definition readable {B : Browser} (f : File) : Prop :=
  exists url : string,
    FileReader_readAsDataURL f = Some url
    /\ if includes (mime f) "svg"
       then exists text : string, FileReader_readAsText f = Some text
       else exists size : nat * nat, Image_onload url = Some size.

(** The session before any upload. *)
Definition fresh : Session := {| pool := []; alerts := [] |}.

(** A numeral with exactly [d] digits after the decimal point: an
    optional minus sign, at least one digit, the point, [d] digits. *)
Definition decimal_places (d : nat) (s : string) : Prop :=
  exists sign ip fp : string,
    s = (sign ++ ip ++ "." ++ fp)%string
    /\ (sign = "" \/ sign = "-")
    /\ ip <> "" /\ all_digits ip = true
    /\ String.length fp = d /\ all_digits fp = true.

(** A finite number below 1e21 in magnitude, the range in which
    [toFixed] prints fixed-point notation. *)
Definition fixed_range (v : number) : Prop :=
  exists q : Q, v = Fin q /\ Qabs q < inject_Z (10 ^ 21).

(** The placements [renderToSVG] embeds as an [<image>] element. *)
Definition embedded_as_image (p : PlacedShape) : Prop :=
  type (asset p) = png
  \/ svgContent (asset p) = None \/ svgContent (asset p) = Some "".

(** A placement of asset [a] centered at [(cx, cy)], not rotated, with
    scale [k]. *)
Definition placed_at (p : PlacedShape) (a : ShapeAsset) (cx cy k : Q) : Prop :=
  asset p = a /\ (x p == Fin cx)%js /\ (y p == Fin cy)%js
  /\ rotation p = Fin 0 /\ (scale p == Fin k)%js.

(** The identifier [`shape-${Date.now()}-${i}`] of the asset made from
    the file at batch index [i]. *)
Definition shape_id {B : Browser} (i : nat) : string :=
  ("shape-" ++ toString (of_Z (Date_now i)) ++ "-" ++ toString (of_nat i))%string.

(** An image source whose load event fires. *)
Definition decodable {B : Browser} (src : string) : Prop :=
  exists size : nat * nat, Image_onload src = Some size.

(** The source [renderToCanvas] gives the image of a placement. *)
Definition image_source (s : PlacedShape) : string := dataUrl (asset s).

(** The placements of [layout] whose asset id occurs neither in [seen]
    nor earlier in [layout]. *)
Fixpoint first_occurrences (seen : list string) (layout : list PlacedShape)
  : list PlacedShape :=
  match layout with
  | [] => []
  | s :: rest =>
      if existsb (String.eqb (id (asset s))) seen
      then first_occurrences seen rest
      else s :: first_occurrences (seen ++ [id (asset s)]) rest
  end.

(** The data URL of the first placement of [layout] that has the asset
    id of [s]. *)
Definition image_of (layout : list PlacedShape) (s : PlacedShape) : string :=
  match find (fun t => String.eqb (id (asset s)) (id (asset t))) layout with
  | Some t => image_source t
  | None => image_source s
  end.

(** The calls that paint [layout], each placement with the image
    [image_of] names. *)
Definition painted (layout : list PlacedShape) : list CanvasCall :=
  flat_map (fun s => frame_calls s ++ paint_calls s (image_of layout s)) layout.

(** A canvas after a completed [renderToCanvas]: untouched without a 2D
    context, else extended by the background of [size] and [strokes]. *)
Definition repainted (size : number) (strokes : list CanvasCall) (c : Canvas)
  : Canvas :=
  if context2d c
  then {| context2d := true;
          calls := calls c ++ background_calls size ++ strokes |}
  else c.

(** What [loadShapes] makes of a supported file: the kind follows the
    media type, the data URL is the one read, a raster asset has the size
    of the decoded image and a vector asset keeps its text and has the
    size [extractSVGDimensions] gives. *)
Definition normalized {B : Browser} (a : ShapeAsset) : Prop :=
  supported (file a) = true
  /\ FileReader_readAsDataURL (file a) = Some (dataUrl a)
  /\ (if includes (mime (file a)) "svg"
      then type a = svg
           /\ exists text : string,
                FileReader_readAsText (file a) = Some text
                /\ svgContent a = Some text
                /\ (width a, height a) = extractSVGDimensions text
      else type a = png /\ svgContent a = None
           /\ exists w h : nat,
                Image_onload (dataUrl a) = Some (w, h)
                /\ width a = of_nat w /\ height a = of_nat h).

(** The sessions the upload and remove handlers lead to from the empty
    one, each handler running to its end before the next one starts. *)
Inductive reachable {B : Browser} : Session -> Prop :=
| reachable_fresh : reachable fresh
| reachable_load (files : list File) (s : Session) :
    reachable s -> reachable (fst (loadShapes files s))
| reachable_remove (target : string) (s : Session) :
    reachable s -> reachable (removeShape target s).

(** ** Sample inputs *)

Module Samples.

Local Open Scope string_scope.

(** Markup of a document made of one empty [svg] element with the given
    attributes. *)
Definition markup (attrs : list (string * string)) : string :=
  "<svg"
  ++ String.concat ""
       (map (fun kv => " " ++ fst kv ++ "=" ++ dq ++ snd kv ++ dq) attrs)
  ++ "></svg>".

Definition xmlns : string * string := ("xmlns", "http://www.w3.org/2000/svg").

(** Root attributes of the sample documents. *)
Definition logo_attrs := [xmlns; ("viewBox", "0 0 50 50")].
Definition flat_attrs := [xmlns; ("width", "0"); ("height", "0")].
Definition comma_attrs := [xmlns; ("viewBox", "0,0,50,50")].
Definition thin_attrs := [xmlns; ("viewBox", "0 0 0 50")].
Definition auto_attrs := [xmlns; ("width", "auto"); ("height", "auto")].
Definition sized_attrs := [xmlns; ("width", "48px"); ("height", "32")].
Definition bare_attrs := [xmlns].
Definition documents :=
  [logo_attrs; flat_attrs; comma_attrs; thin_attrs; auto_attrs; sized_attrs;
   bare_attrs].

Definition logo_svg : File := {| name := "logo.svg"; mime := "image/svg+xml" |}.
Definition flat_svg : File := {| name := "flat.svg"; mime := "image/svg+xml" |}.
Definition comma_svg : File := {| name := "comma.svg"; mime := "image/svg+xml" |}.
Definition thin_svg : File := {| name := "thin.svg"; mime := "image/svg+xml" |}.
Definition auto_svg : File := {| name := "auto.svg"; mime := "image/svg+xml" |}.
Definition mark_png : File := {| name := "mark.png"; mime := "image/png" |}.
Definition notes_txt : File := {| name := "notes.txt"; mime := "text/plain" |}.
Definition page_svg : File := {| name := "page.svg"; mime := "image/svg+xml" |}.

(** A 200 by 100 one-bit PNG. *)
Definition mark_url : string :=
  "data:image/png;base64,iVBORw0KGgoAAAANSUhEUgAAAMgAAABkAQAAAADr/UKmAAAAGUlEQVR42u3BgQAAAADDoPlTH+AKVQEAwBsKKAAB54Y7KQAAAABJRU5ErkJggg==".

Definition logo_url : string :=
  "data:image/svg+xml;base64,PHN2ZyB4bWxucz0iaHR0cDovL3d3dy53My5vcmcvMjAwMC9zdmciIHZpZXdCb3g9IjAgMCA1MCA1MCI+PC9zdmc+".

Definition flat_url : string :=
  "data:image/svg+xml;base64,PHN2ZyB4bWxucz0iaHR0cDovL3d3dy53My5vcmcvMjAwMC9zdmciIHdpZHRoPSIwIiBoZWlnaHQ9IjAiPjwvc3ZnPg==".

Definition comma_url : string :=
  "data:image/svg+xml;base64,PHN2ZyB4bWxucz0iaHR0cDovL3d3dy53My5vcmcvMjAwMC9zdmciIHZpZXdCb3g9IjAsMCw1MCw1MCI+PC9zdmc+".

Definition thin_url : string :=
  "data:image/svg+xml;base64,PHN2ZyB4bWxucz0iaHR0cDovL3d3dy53My5vcmcvMjAwMC9zdmciIHZpZXdCb3g9IjAgMCAwIDUwIj48L3N2Zz4=".

Definition auto_url : string :=
  "data:image/svg+xml;base64,PHN2ZyB4bWxucz0iaHR0cDovL3d3dy53My5vcmcvMjAwMC9zdmciIHdpZHRoPSJhdXRvIiBoZWlnaHQ9ImF1dG8iPjwvc3ZnPg==".

Definition notes_url : string := "data:text/plain;base64,bm90ZXM=".

(** A document whose root is not an [svg] element. *)
Definition page_text : string := "<html></html>".
Definition page_url : string := "data:image/svg+xml;base64,PGh0bWw+PC9odG1sPg==".

(** Three zero bytes: not an image. *)
Definition torn_url : string := "data:image/png;base64,AAAA".

(** A browser that holds the sample files, decodes the sample image and
    parses the sample documents. *)
#[export] Instance browser : Browser := {|
  FileReader_readAsDataURL f :=
    lookup (name f)
      [("logo.svg", logo_url); ("flat.svg", flat_url); ("comma.svg", comma_url);
       ("thin.svg", thin_url); ("auto.svg", auto_url); ("mark.png", mark_url);
       ("notes.txt", notes_url); ("torn.png", torn_url);
       ("page.svg", page_url)];
  FileReader_readAsText f :=
    lookup (name f)
      [("logo.svg", markup logo_attrs); ("flat.svg", markup flat_attrs);
       ("comma.svg", markup comma_attrs); ("thin.svg", markup thin_attrs);
       ("auto.svg", markup auto_attrs); ("notes.txt", "notes");
       ("page.svg", page_text)];
  Image_onload url :=
    if String.eqb url mark_url then Some (200%nat, 100%nat) else None;
  DOMParser_svg s :=
    match find (fun attrs => String.eqb s (markup attrs)) documents with
    | Some attrs => Some {| attributes := attrs; innerHTML := "" |}
    | None => None
    end;
  Date_now _ := 1700000000000%Z
|}.

(** The raster asset of the specification's scenario A. *)
Definition raster : ShapeAsset := {|
  id := "shape-1700000000000-0";
  file := mark_png;
  type := png;
  dataUrl := mark_url;
  svgContent := None;
  width := Fin 200;
  height := Fin 100
|}.

(** The options of scenario A: four shapes, no jitter, no rotation. *)
Definition scenarioA : PatternOptions := {|
  shapeCount := Fin 4;
  offsetIntensity := Fin 0;
  enableRotation := false;
  canvasSize := Fin 400
|}.

(** Five shapes on a 3 by 3 grid, half-cell jitter, rotation on. *)
Definition jittered : PatternOptions := {|
  shapeCount := Fin 5;
  offsetIntensity := Fin 0.5;
  enableRotation := true;
  canvasSize := Fin 300
|}.

(** Random sources: every draw [0]; draws cycling through 0, 1/4, 1/2, 3/4. *)
Definition zeros : nat -> Q := fun _ => 0.
Definition quarters : nat -> Q := fun k => Z.of_nat (k mod 4) # 4.

(** A placement at the origin, the default of [nth]. *)
Definition origin : PlacedShape := {|
  asset := raster; x := Fin 0; y := Fin 0; rotation := Fin 0; scale := Fin 1
|}.

(** The layouts the engine returns on these inputs. *)
Definition layout_of (r : outcome (list PlacedShape)) : list PlacedShape :=
  match r with
  | Returns l => l
  | _ => []
  end.

Definition scenarioA_layout : list PlacedShape :=
  Eval vm_compute in layout_of (generatePatternLayout zeros [raster] scenarioA).

Definition jittered_layout : list PlacedShape :=
  Eval vm_compute in layout_of (generatePatternLayout quarters [raster] jittered).


(** Scenario C of the specification with a raster file added: one vector
    file, one unsupported file, one raster file. *)
Definition batch : list File := [logo_svg; notes_txt; mark_png].

(** Vector files whose dimensions are degenerate. *)
Definition odd_batch : list File := [flat_svg; comma_svg; thin_svg].

Definition odd_pool : list ShapeAsset :=
  Eval vm_compute in pool (fst (loadShapes odd_batch fresh)).

Definition logo_asset : ShapeAsset :=
  Eval vm_compute in nth 0 (pool (fst (loadShapes batch fresh))) raster.

Definition mark_asset : ShapeAsset :=
  Eval vm_compute in nth 1 (pool (fst (loadShapes batch fresh))) raster.

Definition page_asset : ShapeAsset :=
  Eval vm_compute in nth 0 (pool (fst (loadShapes [page_svg] fresh))) raster.

Definition flat_asset : ShapeAsset := nth 0 odd_pool raster.
Definition comma_asset : ShapeAsset := nth 1 odd_pool raster.
Definition thin_asset : ShapeAsset := nth 2 odd_pool raster.

(** A mounted canvas nothing has drawn on, and one without a context. *)
Definition blank : Canvas := {| context2d := true; calls := [] |}.
Definition inert : Canvas := {| context2d := false; calls := [] |}.

(** The component before its first pattern: the preview canvas is not
    mounted, the hidden full canvas is. *)
Definition opened (shapes : list ShapeAsset) (opts : PatternOptions) : App := {|
  session := {| pool := shapes; alerts := [] |};
  pattern := None;
  options := opts;
  isGenerating := false;
  previewCanvas := None;
  fullCanvas := Some blank;
  console := []
|}.

(** The component showing a pattern: both canvases are mounted. *)
Definition showing (shapes : list ShapeAsset) (opts : PatternOptions)
  (layout : list PlacedShape) : App := {|
  session := {| pool := shapes; alerts := [] |};
  pattern := Some layout;
  options := opts;
  isGenerating := false;
  previewCanvas := Some blank;
  fullCanvas := Some blank;
  console := []
|}.

(** The layout the engine returns for a pool that holds the page asset. *)
Definition page_layout : list PlacedShape :=
  Eval vm_compute in
    layout_of (generatePatternLayout zeros [page_asset] scenarioA).

(** The layout the engine returns for a pool that holds the asset of
    size 0 by 0. *)
Definition flat_layout : list PlacedShape :=
  Eval vm_compute in
    layout_of (generatePatternLayout zeros [flat_asset] scenarioA).

(** A raster file the browser cannot read. *)
Definition gone_png : File := {| name := "gone.png"; mime := "image/png" |}.

(** A placement of an asset at the center of a 200 by 200 cell. *)
Definition centered (a : ShapeAsset) : PlacedShape := {|
  asset := a; x := Fin 100; y := Fin 100; rotation := Fin 0; scale := Fin 1.2
|}.

End Samples.

#[global] Existing Instance Samples.browser.

(** * Properties *)

(** ** Numbers *)

Lemma Qlt_bool_iff (a b : Q) : Qlt_bool a b = true <-> a < b.
Proof.
  unfold Qlt_bool. rewrite negb_true_iff. split; intro H.
  - apply Qnot_le_lt. intro L. apply Qle_bool_iff in L. congruence.
  - destruct (Qle_bool b a) eqn:E; [ | reflexivity ].
    apply Qle_bool_iff in E. lra.
Qed.

Lemma Qlt_bool_false (a b : Q) : Qlt_bool a b = false <-> b <= a.
Proof.
  unfold Qlt_bool. rewrite negb_false_iff. apply Qle_bool_iff.
Qed.

Lemma Qeq_bool_false (a b : Q) : ~ a == b -> Qeq_bool a b = false.
Proof.
  intro H. destruct (Qeq_bool a b) eqn:E; [ | reflexivity ].
  apply Qeq_bool_eq in E. contradiction.
Qed.

(** [Zceil_sqrt n] is the ceiling of the square root of [n]. *)
Lemma Zceil_sqrt_spec (n : Z) :
  (0 <= n)%Z ->
  let g := Zceil_sqrt n in
  (0 <= g /\ n <= g * g /\ (0 < n -> (g - 1) * (g - 1) < n))%Z.
Proof.
  intros Hn g. subst g. unfold Zceil_sqrt.
  pose proof (Z.sqrt_spec n Hn) as [Hlo Hhi].
  pose proof (Z.sqrt_nonneg n) as Hs.
  destruct (Z.eqb_spec (Z.sqrt n * Z.sqrt n) n) as [E | E].
  - repeat split; try lia; intros; nia.
  - repeat split; try lia; intros; nia.
Qed.

Lemma Zceil_sqrt_pos (n : Z) : (0 < n)%Z -> (0 < Zceil_sqrt n)%Z.
Proof.
  intro Hn. pose proof (@Zceil_sqrt_spec n ltac:(lia)) as (H0 & H1 & _).
  cbv zeta in *. nia.
Qed.

(** [Math.ceil(Math.sqrt(q))] of a finite non-negative [q] is the least
    integer whose square reaches [q]. *)
Lemma Math_ceil_sqrt_spec (q : Q) :
  0 <= q ->
  exists g : Z,
    Math_ceil_sqrt (Fin q) = of_Z g /\ (0 <= g)%Z
    /\ q <= inject_Z (g * g)
    /\ (0 < q -> inject_Z ((g - 1) * (g - 1)) < q).
Proof.
  intro Hq. exists (Zceil_sqrt (Qceiling q)).
  assert (Hc : (0 <= Qceiling q)%Z).
  { change 0%Z with (Qceiling 0). now apply Qceiling_resp_le. }
  pose proof (Zceil_sqrt_spec Hc) as (H0 & H1 & H2). cbv zeta in *.
  unfold Math_ceil_sqrt.
  replace (Qlt_bool q 0) with false
    by (symmetry; now apply Qlt_bool_false).
  repeat split; auto.
  - apply Qle_trans with (inject_Z (Qceiling q)); [ apply Qle_ceiling | ].
    rewrite <- Zle_Qle. exact H1.
  - intro Hpos.
    assert (Hc' : (0 < Qceiling q)%Z).
    { apply Z.lt_le_trans with (Qceiling q - 1 + 1)%Z; [ | lia ].
      pose proof (Qceiling_lt q) as L.
      assert (0 < inject_Z (Qceiling q)) as P.
      { apply Qlt_le_trans with q; [ exact Hpos | apply Qle_ceiling ]. }
      change 0 with (inject_Z 0) in P. rewrite <- Zlt_Qlt in P. lia. }
    specialize (H2 Hc').
    apply Qle_lt_trans with (inject_Z (Qceiling q - 1)).
    + rewrite <- Zle_Qle. lia.
    + apply Qceiling_lt.
Qed.

(** The loop guard [i < n] holds exactly for the indices below
    [loop_bound n]. *)
Lemma loop_bound_guard (n : number) (k : nat) :
  loop_bound n = Some k ->
  forall i : nat, (of_nat i <? n)%js = (i <? k)%nat.
Proof.
  destruct n as [q | | | ]; simpl; intros [= <-] i; try reflexivity.
  - destruct (Nat.ltb_spec i (Z.to_nat (Qceiling q))) as [L | L].
    + apply Qlt_bool_iff.
      apply Qle_lt_trans with (inject_Z (Qceiling q - 1)).
      * rewrite <- Zle_Qle. lia.
      * apply Qceiling_lt.
    + apply Qlt_bool_false.
      apply Qle_trans with (inject_Z (Qceiling q)); [ apply Qle_ceiling | ].
      rewrite <- Zle_Qle. lia.
Qed.

Lemma loop_bound_unbounded (n : number) :
  loop_bound n = None -> forall i : nat, (of_nat i <? n)%js = true.
Proof.
  destruct n; simpl; intros [=] i. reflexivity.
Qed.

(** ** The placement loop *)

Section LayoutFacts.

Variable random : nat -> Q.
Variable shapes : list ShapeAsset.
Variable opts : PatternOptions.

Let cell := cellSize opts.
Let grid := gridSize opts.

(** What one iteration computes, read off the body of the loop. *)
Lemma place_inv (i st st' : nat) (p : PlacedShape) :
  place random shapes opts i st = Returns (p, st') ->
  array_get shapes (Math_floor (Fin (random st) * of_nat (List.length shapes))%js)
  = Some (asset p)
  /\ x p = ((of_nat i mod grid) * cell + cell / Fin 2
            + (Fin (random (S st)) - Fin 0.5) * (cell * offsetIntensity opts))%js
  /\ y p = (Math_floor (of_nat i / grid) * cell + cell / Fin 2
            + (Fin (random (S (S st))) - Fin 0.5) * (cell * offsetIntensity opts))%js
  /\ rotation p = (if enableRotation opts
                   then (Fin (random (S (S (S st)))) * Fin 360)%js
                   else Fin 0)
  /\ scale p = (cell * Fin 0.6 / Math_max (width (asset p)) (height (asset p)))%js.
Proof.
  unfold place, bind, Math_random, ret, throw. subst cell grid.
  destruct (array_get shapes _) as [a | ] eqn:Ea;
    destruct (enableRotation opts); intros [= <- _]; simpl; auto.
Qed.

(** An iteration throws only when the sampled index misses the pool. *)
Lemma place_returns (i st : nat) (a : ShapeAsset) :
  array_get shapes (Math_floor (Fin (random st) * of_nat (List.length shapes))%js)
  = Some a ->
  exists p st', place random shapes opts i st = Returns (p, st').
Proof.
  intro Ea. unfold place, bind, Math_random, ret, throw. rewrite Ea.
  destruct (enableRotation opts); eauto.
Qed.

Lemma place_loop_inv (k : nat) :
  forall (i : nat) (acc l : list PlacedShape) (st st' : nat),
    place_loop random shapes opts k i acc st = Returns (l, st') ->
    exists ps : list PlacedShape,
      l = acc ++ ps /\ List.length ps = k
      /\ forall (j : nat) (p : PlacedShape),
           nth_error ps j = Some p ->
           exists s s', place random shapes opts (i + j) s = Returns (p, s').
Proof.
  induction k as [ | k IH]; intros i acc l st st' Hrun.
  - injection Hrun as <- _. exists []. rewrite app_nil_r.
    repeat split; auto. intros [ | j] p; discriminate.
  - simpl in Hrun. unfold bind at 1 in Hrun.
    destruct (place random shapes opts i st) as [[p0 s0] | e | ] eqn:Hp;
      try discriminate.
    apply IH in Hrun as (ps & -> & Hlen & Hnth).
    exists (p0 :: ps). rewrite <- app_assoc. repeat split; simpl; auto.
    intros [ | j] p Hj; simpl in Hj.
    + injection Hj as <-. rewrite Nat.add_0_r. eauto.
    + replace (i + S j)%nat with (S i + j)%nat by lia. now apply Hnth.
Qed.

Lemma place_loop_total (k : nat) :
  (forall i st, exists p st', place random shapes opts i st = Returns (p, st')) ->
  forall (i : nat) (acc : list PlacedShape) (st : nat),
    exists l st', place_loop random shapes opts k i acc st = Returns (l, st').
Proof.
  intro Hplace. induction k as [ | k IH]; intros i acc st; simpl.
  - unfold ret. eauto.
  - unfold bind at 1. destruct (Hplace i st) as (p & s & ->). apply IH.
Qed.

(** A returned layout has one placement per iteration, the [j]-th made
    by iteration [j]. *)
Lemma generatePatternLayout_inv (layout : list PlacedShape) :
  shapes <> [] ->
  generatePatternLayout random shapes opts = Returns layout ->
  exists k : nat,
    loop_bound (shapeCount opts) = Some k /\ List.length layout = k
    /\ forall (j : nat) (p : PlacedShape),
         nth_error layout j = Some p ->
         exists s s', place random shapes opts j s = Returns (p, s').
Proof.
  intros Hne. unfold generatePatternLayout.
  destruct shapes as [ | a0 rest] eqn:E; [ congruence | ]. rewrite <- E.
  destruct (loop_bound (shapeCount opts)) as [k | ]; [ | discriminate ].
  destruct (place_loop _ _ _ _ _ _ _) as [[l s] | e | ] eqn:Hrun;
    simpl; intros [= <-].
  apply place_loop_inv in Hrun as (ps & -> & Hlen & Hnth).
  exists k. simpl. repeat split; auto.
Qed.

(** A placement of a returned layout was made from a non-empty pool. *)
Lemma layout_pool_nonempty (layout : list PlacedShape) (i : nat) (p : PlacedShape) :
  generatePatternLayout random shapes opts = Returns layout ->
  nth_error layout i = Some p ->
  shapes <> [].
Proof.
  unfold generatePatternLayout. intros Hrun Hi ->.
  injection Hrun as <-. destruct i; discriminate.
Qed.

End LayoutFacts.

(** ** Sampling from the pool *)

Lemma array_get_In (A : Type) (arr : list A) (k : number) (a : A) :
  array_get arr k = Some a -> In a arr.
Proof.
  destruct k as [q | | | ]; simpl; try discriminate.
  destruct (_ && _); [ | discriminate ]. apply nth_error_In.
Qed.

Lemma array_get_of_Z (A : Type) (arr : list A) (z : Z) :
  (0 <= z)%Z -> array_get arr (of_Z z) = nth_error arr (Z.to_nat z).
Proof.
  intro Hz. unfold array_get, of_Z.
  rewrite Qfloor_Z, Qeq_bool_refl.
  destruct (Z.leb_spec 0 z); [ reflexivity | lia ].
Qed.

(** [Math.floor(Math.random() * length)] is an index of a non-empty
    array. *)
Lemma array_get_sample (A : Type) (arr : list A) (r : Q) :
  arr <> [] -> 0 <= r < 1 ->
  exists a : A,
    array_get arr (Math_floor (Fin r * of_nat (List.length arr))%js) = Some a.
Proof.
  intros Hne [H0 H1].
  set (len := Z.of_nat (List.length arr)).
  assert (Hlen : (0 < len)%Z).
  { subst len. destruct arr; [ congruence | simpl; lia ]. }
  assert (HlenQ : 0 < inject_Z len).
  { change 0 with (inject_Z 0). now rewrite <- Zlt_Qlt. }
  set (z := Qfloor (r * inject_Z len)).
  assert (Hz0 : (0 <= z)%Z).
  { subst z. change 0%Z with (Qfloor 0). apply Qfloor_resp_le. nra. }
  assert (Hz1 : (z < len)%Z).
  { subst z. rewrite Zlt_Qlt.
    apply Qle_lt_trans with (r * inject_Z len); [ apply Qfloor_le | nra ]. }
  destruct (nth_error arr (Z.to_nat z)) as [a | ] eqn:Ea.
  - exists a.
    change (array_get arr (of_Z z) = Some a).
    now rewrite array_get_of_Z.
  - apply nth_error_None in Ea. subst len. lia.
Qed.

Section LayoutClaims.

Variable random : nat -> Q.
Variable shapes : list ShapeAsset.
Variable opts : PatternOptions.

Hypothesis random_range : unit_interval random.

(** With a non-empty pool every iteration returns a placement. *)
Lemma place_total :
  shapes <> [] ->
  forall i st, exists p st', place random shapes opts i st = Returns (p, st').
Proof.
  intros Hne i st.
  destruct (array_get_sample Hne (random_range st)) as (a & Ea).
  now apply place_returns with a.
Qed.

(** The layout is returned whenever the count is not infinite. *)
Lemma generatePatternLayout_total (k : nat) :
  loop_bound (shapeCount opts) = Some k ->
  exists layout, generatePatternLayout random shapes opts = Returns layout.
Proof.
  intro Hk. unfold generatePatternLayout.
  destruct shapes as [ | a0 rest] eqn:E; eauto.
  rewrite <- E, Hk.
  destruct (@place_loop_total random shapes opts k) with (i := 0%nat)
    (acc := @nil PlacedShape) (st := 0%nat) as (lay & s & ->); simpl; eauto.
  apply place_total. congruence.
Qed.

End LayoutClaims.

(** ** The grid of a valid options record *)

Lemma Qdiv_pos (a b : Q) : 0 < a -> 0 < b -> 0 < a / b.
Proof.
  intros Ha Hb. unfold Qdiv. apply Qmult_lt_0_compat; [ exact Ha | ].
  now apply Qinv_lt_0_compat.
Qed.

Lemma inject_Z_pos (z : Z) : (0 < z)%Z -> 0 < inject_Z z.
Proof. intro H. change 0 with (inject_Z 0). now rewrite <- Zlt_Qlt. Qed.

Lemma div_Fin (a b : Q) : ~ b == 0 -> (Fin a / Fin b)%js = Fin (a / b).
Proof. intro H. unfold div. now rewrite Qeq_bool_false. Qed.

Section ValidGrid.

Variable opts : PatternOptions.
Variables (n : Z) (o c : Q).
Hypothesis valid : valid_options opts n o c.

Let g : Z := Zceil_sqrt n.

Lemma valid_grid_pos : (0 < g)%Z.
Proof. destruct valid as (_ & Hn & _). now apply Zceil_sqrt_pos. Qed.

Lemma valid_loop_bound : loop_bound (shapeCount opts) = Some (Z.to_nat n).
Proof.
  destruct valid as (Hs & _).
  destruct (shapeCount opts) as [q | | | ]; simpl in Hs; try contradiction.
  simpl. now rewrite Hs, Qceiling_Z.
Qed.

Lemma valid_gridSize : gridSize opts = of_Z g.
Proof.
  destruct valid as (Hs & Hn & _). unfold gridSize.
  destruct (shapeCount opts) as [q | | | ]; simpl in Hs; try contradiction.
  unfold Math_ceil_sqrt.
  replace (Qlt_bool q 0) with false.
  - now rewrite Hs, Qceiling_Z.
  - symmetry. apply Qlt_bool_false. rewrite Hs.
    apply Qlt_le_weak, inject_Z_pos, Hn.
Qed.

Lemma valid_cellSize : cellSize opts = Fin (c / inject_Z g).
Proof.
  unfold cellSize. rewrite valid_gridSize.
  destruct valid as (_ & _ & _ & _ & -> & _).
  apply div_Fin. pose proof (inject_Z_pos valid_grid_pos). lra.
Qed.

Lemma valid_cellSize_pos : 0 < c / inject_Z g.
Proof.
  destruct valid as (_ & _ & _ & _ & _ & Hc).
  apply Qdiv_pos; [ exact Hc | apply inject_Z_pos, valid_grid_pos ].
Qed.

(** Column of index [i]: [i % gridSize]. *)
Lemma valid_col (i : nat) :
  exists q : Q,
    (of_nat i mod gridSize opts)%js = Fin q
    /\ q == inject_Z (Z.of_nat i mod g).
Proof.
  rewrite valid_gridSize. unfold rem, of_nat, of_Z.
  pose proof valid_grid_pos as Hg. pose proof (inject_Z_pos Hg) as HgQ.
  rewrite Qeq_bool_false by lra.
  eexists; split; [ reflexivity | ].
  assert (Ht : Qtrunc (inject_Z (Z.of_nat i) / inject_Z g)
               = (Z.of_nat i / g)%Z).
  { unfold Qtrunc.
    assert (0 <= inject_Z (Z.of_nat i) / inject_Z g) as Hnn.
    { unfold Qdiv. apply Qmult_le_0_compat.
      - change 0 with (inject_Z 0). rewrite <- Zle_Qle. lia.
      - apply Qlt_le_weak. now apply Qinv_lt_0_compat. }
    apply Qle_bool_iff in Hnn. rewrite Hnn. symmetry. apply Zdiv_Qdiv. }
  rewrite Ht, (Z.mod_eq (Z.of_nat i) g) by lia.
  unfold Z.sub. rewrite inject_Z_plus, inject_Z_opp, inject_Z_mult. ring.
Qed.

(** Row of index [i]: [Math.floor(i / gridSize)]. *)
Lemma valid_row (i : nat) :
  Math_floor (of_nat i / gridSize opts)%js = of_Z (Z.of_nat i / g).
Proof.
  rewrite valid_gridSize. unfold of_nat, of_Z.
  pose proof valid_grid_pos as Hg. pose proof (inject_Z_pos Hg) as HgQ.
  rewrite div_Fin by lra. unfold Math_floor, of_Z.
  now rewrite <- Zdiv_Qdiv.
Qed.


End ValidGrid.

(** ** Layout engine: the claims *)

Lemma zeros_unit : unit_interval Samples.zeros.
Proof. intro k. unfold Samples.zeros. lra. Qed.

Lemma quarters_unit : unit_interval Samples.quarters.
Proof.
  intro k. unfold Samples.quarters.
  pose proof (Nat.mod_upper_bound k 4 ltac:(lia)) as Hk.
  split; [ unfold Qle | unfold Qlt ]; cbn [Qnum Qden]; lia.
Qed.

Lemma scenarioA_valid : valid_options Samples.scenarioA 4 0 400.
Proof. unfold valid_options; simpl; repeat split; (reflexivity || lra || lia). Qed.

Lemma jittered_valid : valid_options Samples.jittered 5 0.5 300.
Proof. unfold valid_options; simpl; repeat split; (reflexivity || lra || lia). Qed.

(** C1.  For a non-empty pool and a valid options record (a positive
    integer shape count in particular), [generatePatternLayout] returns a
    sequence of exactly [shapeCount] placements, and the asset of every
    placement is an element of the pool. *)
Theorem layout_count_and_membership
  (random : nat -> Q) (shapes : list ShapeAsset) (opts : PatternOptions)
  (n : Z) (o c : Q) :
  unit_interval random ->
  shapes <> [] ->
  valid_options opts n o c ->
  exists layout : list PlacedShape,
    generatePatternLayout random shapes opts = Returns layout
    /\ List.length layout = Z.to_nat n
    /\ Forall (fun p => In (asset p) shapes) layout.
Proof.
  intros Hr Hne Hv.
  pose proof (valid_loop_bound Hv) as Hk.
  destruct (generatePatternLayout_total shapes opts Hr Hk) as (layout & Hrun).
  exists layout. split; [ exact Hrun | ].
  destruct (@generatePatternLayout_inv random shapes opts layout Hne Hrun) as (k & Hk' & Hlen & Hnth).
  split; [ congruence | ].
  apply Forall_forall. intros p Hin.
  apply In_nth_error in Hin as (j & Hj).
  destruct (Hnth j p Hj) as (s & s' & Hp).
  apply place_inv in Hp as (Ha & _).
  now apply array_get_In in Ha.
Qed.

Lemma layout_count_and_membership_witness :
  exists layout : list PlacedShape,
    generatePatternLayout Samples.quarters [Samples.raster] Samples.jittered
    = Returns layout
    /\ List.length layout = 5%nat
    /\ Forall (fun p => In (asset p) [Samples.raster]) layout.
Proof.
  apply (@layout_count_and_membership Samples.quarters [Samples.raster]
           Samples.jittered 5 0.5 300).
  - exact quarters_unit.
  - discriminate.
  - exact jittered_valid.
Defined.

(** C8.  With an empty pool [generatePatternLayout] returns the empty
    sequence, without an error, whatever the options and the random
    source. *)
Theorem empty_pool_empty_layout (random : nat -> Q) (opts : PatternOptions) :
  generatePatternLayout random [] opts = Returns [].
Proof. unfold generatePatternLayout. reflexivity. Qed.

(** C10.  With a non-empty pool and a shape count that is at most zero
    the loop body never runs: the layout returned is empty, the count is
    not raised to one and no error is thrown. *)
Theorem nonpositive_count_empty_layout
  (random : nat -> Q) (shapes : list ShapeAsset) (opts : PatternOptions) :
  shapes <> [] ->
  le (shapeCount opts) (Fin 0) = true ->
  generatePatternLayout random shapes opts = Returns [].
Proof.
  intros Hne Hle. unfold generatePatternLayout.
  destruct shapes as [ | a0 rest]; [ congruence | ].
  destruct (shapeCount opts) as [q | | | ]; simpl in Hle; try discriminate;
    simpl loop_bound; [ | reflexivity ].
  apply Qle_bool_iff in Hle.
  assert (Hc : (Qceiling q <= 0)%Z).
  { change 0%Z with (Qceiling 0). now apply Qceiling_resp_le. }
  replace (Z.to_nat (Qceiling q)) with 0%nat by lia. reflexivity.
Qed.

Lemma nonpositive_count_empty_layout_witness :
  generatePatternLayout Samples.quarters [Samples.raster]
    {| shapeCount := Fin (-3); offsetIntensity := Fin 0.3;
       enableRotation := true; canvasSize := Fin 1080 |}
  = Returns []
  /\ generatePatternLayout Samples.quarters [Samples.raster]
       {| shapeCount := Fin 0; offsetIntensity := Fin 0.3;
          enableRotation := true; canvasSize := Fin 1080 |}
     = Returns [].
Proof.
  split; apply nonpositive_count_empty_layout;
    (discriminate || reflexivity).
Defined.

(** C7.  Every placement of a returned layout has a rotation in
    [[0, 360)], and the rotation is exactly [0] when [enableRotation] is
    false.  (The layout is returned for every finite count, lemma
    [generatePatternLayout_total].) *)
Theorem rotation_range
  (random : nat -> Q) (shapes : list ShapeAsset) (opts : PatternOptions)
  (layout : list PlacedShape) (p : PlacedShape) :
  unit_interval random ->
  generatePatternLayout random shapes opts = Returns layout ->
  In p layout ->
  (exists r : Q, rotation p = Fin r /\ 0 <= r < 360)
  /\ (enableRotation opts = false -> rotation p = Fin 0).
Proof.
  intros Hr Hrun Hin.
  apply In_nth_error in Hin as (j & Hj).
  pose proof (@layout_pool_nonempty _ _ _ _ _ _ Hrun Hj) as Hne.
  destruct (@generatePatternLayout_inv random shapes opts layout Hne Hrun) as (k & _ & _ & Hnth).
  destruct (Hnth j p Hj) as (s & s' & Hp).
  apply place_inv in Hp as (_ & _ & _ & Hrot & _).
  rewrite Hrot. destruct (enableRotation opts).
  - split; [ | discriminate ].
    exists (random (S (S (S s))) * 360). split; [ reflexivity | ].
    pose proof (Hr (S (S (S s)))). lra.
  - split; [ | reflexivity ]. exists 0. split; [ reflexivity | lra ].
Qed.

Lemma rotation_range_witness :
  ((exists r : Q, rotation (nth 1 Samples.jittered_layout Samples.origin) = Fin r
                  /\ 0 <= r < 360)
   /\ (enableRotation Samples.jittered = false ->
       rotation (nth 1 Samples.jittered_layout Samples.origin) = Fin 0))
  /\ ((exists r : Q, rotation (nth 1 Samples.scenarioA_layout Samples.origin) = Fin r
                     /\ 0 <= r < 360)
      /\ (enableRotation Samples.scenarioA = false ->
          rotation (nth 1 Samples.scenarioA_layout Samples.origin) = Fin 0)).
Proof.
  split.
  - apply (@rotation_range Samples.quarters [Samples.raster] Samples.jittered
             Samples.jittered_layout _ quarters_unit);
      [ vm_compute; reflexivity | simpl; auto ].
  - apply (@rotation_range Samples.zeros [Samples.raster] Samples.scenarioA
             Samples.scenarioA_layout _ zeros_unit);
      [ vm_compute; reflexivity | simpl; auto ].
Defined.

Lemma add_Fin (a b : Q) : (Fin a + Fin b)%js = Fin (a + b).
Proof. reflexivity. Qed.

Lemma sub_Fin (a b : Q) : (Fin a - Fin b)%js = Fin (a + - b).
Proof. reflexivity. Qed.

Lemma mul_Fin (a b : Q) : (Fin a * Fin b)%js = Fin (a * b).
Proof. reflexivity. Qed.

Lemma Math_max_Fin (a b : Q) :
  exists m : Q, Math_max (Fin a) (Fin b) = Fin m /\ m == Qmax a b.
Proof.
  unfold Math_max. eexists; split; [ reflexivity | ].
  destruct (Qle_bool a b) eqn:E.
  - apply Qle_bool_iff in E. symmetry. now apply Q.max_r.
  - symmetry. apply Q.max_l. apply Qlt_le_weak, Qnot_le_lt.
    intro L. apply Qle_bool_iff in L. congruence.
Qed.

(** C6.  For a valid options record, every placement whose asset has
    positive intrinsic dimensions [w] and [h] has a scale [s > 0] with
    [s * max(w, h) = cellSize * 0.6], where
    [cellSize = canvasSize / ceil(sqrt(shapeCount))]; the equality is
    that of rational arithmetic. *)
Theorem scale_fits_cell
  (random : nat -> Q) (shapes : list ShapeAsset) (opts : PatternOptions)
  (n : Z) (o c : Q) (layout : list PlacedShape) (p : PlacedShape) (w h : Q) :
  valid_options opts n o c ->
  generatePatternLayout random shapes opts = Returns layout ->
  In p layout ->
  width (asset p) = Fin w -> 0 < w ->
  height (asset p) = Fin h -> 0 < h ->
  exists s : Q,
    scale p = Fin s /\ 0 < s
    /\ s * Qmax w h == c / inject_Z (Zceil_sqrt n) * 0.6.
Proof.
  intros Hv Hrun Hin Hw Hwpos Hh Hhpos.
  apply In_nth_error in Hin as (j & Hj).
  pose proof (@layout_pool_nonempty _ _ _ _ _ _ Hrun Hj) as Hne.
  destruct (@generatePatternLayout_inv random shapes opts layout Hne Hrun)
    as (k & _ & _ & Hnth).
  destruct (Hnth j p Hj) as (st & st' & Hp).
  apply place_inv in Hp as (_ & _ & _ & _ & Hscale).
  rewrite (valid_cellSize Hv), Hw, Hh, mul_Fin in Hscale.
  destruct (Math_max_Fin w h) as (m & Hm & Hmax).
  assert (Hmpos : 0 < m).
  { rewrite Hmax. apply Qlt_le_trans with w; [ exact Hwpos | apply Q.le_max_l ]. }
  rewrite Hm, div_Fin in Hscale by lra.
  pose proof (valid_cellSize_pos Hv) as Hcs.
  eexists. split; [ exact Hscale | ]. split.
  - apply Qdiv_pos; [ lra | exact Hmpos ].
  - rewrite <- Hmax. generalize (c / inject_Z (Zceil_sqrt n)). intro cs.
    field. lra.
Qed.

Lemma scale_fits_cell_witness :
  exists s : Q,
    scale (nth 2 Samples.jittered_layout Samples.origin) = Fin s /\ 0 < s
    /\ s * Qmax 200 100 == 300 / inject_Z (Zceil_sqrt 5) * 0.6.
Proof.
  apply (@scale_fits_cell Samples.quarters [Samples.raster] Samples.jittered
           5 0.5 300 Samples.jittered_layout _ 200 100 jittered_valid);
    [ vm_compute; reflexivity | simpl; auto | reflexivity | reflexivity
    | reflexivity | reflexivity ].
Defined.

(** The placement of index [i] for a valid options record: its center is
    the center of the cell in column [i mod gridSize] and row
    [i div gridSize], moved by [(r - 0.5) * cellSize * offsetIntensity] in
    each axis for a random draw [r] of its own. *)
Lemma place_center
  (random : nat -> Q) (shapes : list ShapeAsset) (opts : PatternOptions)
  (n : Z) (o c : Q) (i st st' : nat) (p : PlacedShape) :
  valid_options opts n o c ->
  place random shapes opts i st = Returns (p, st') ->
  let g := Zceil_sqrt n in
  let cs := c / inject_Z g in
  exists qx qy : Q,
    x p = Fin qx /\ y p = Fin qy
    /\ qx == inject_Z (Z.of_nat i mod g) * cs + cs / 2
             + (random (S st) - (1 # 2)) * (cs * o)
    /\ qy == inject_Z (Z.of_nat i / g) * cs + cs / 2
             + (random (S (S st)) - (1 # 2)) * (cs * o).
Proof.
  intros Hv Hp g cs. subst g cs.
  apply place_inv in Hp as (_ & Hx & Hy & _).
  destruct (valid_col Hv i) as (qc & Hcol & Hqc).
  pose proof (inject_Z_pos (valid_grid_pos Hv)) as HgQ.
  rewrite Hcol, (valid_cellSize Hv) in Hx.
  rewrite (valid_row Hv), (valid_cellSize Hv) in Hy.
  destruct Hv as (_ & _ & Ho & _). rewrite Ho in Hx, Hy.
  rewrite !mul_Fin, sub_Fin, div_Fin, !add_Fin, mul_Fin, add_Fin in Hx by lra.
  unfold of_Z in Hy.
  rewrite !mul_Fin, sub_Fin, div_Fin, !add_Fin, mul_Fin, add_Fin in Hy by lra.
  eexists; eexists. split; [ exact Hx | ]. split; [ exact Hy | ].
  split; [ rewrite Hqc | ]; field; lra.
Qed.




(** ** Asset normalizer: the claims *)

Section LoadFacts.

Context {B : Browser}.

(** A file that is not supported raises its alert and pushes nothing. *)
Lemma load_file_unsupported (f : File) (i : nat) (log : list string) :
  supported f = false ->
  load_file f i log = (log ++ [warning f], Returns None).
Proof.
  unfold supported, load_file. intro H.
  apply orb_false_iff in H as [-> ->]. reflexivity.
Qed.

(** A supported, readable file raises no alert and pushes an asset that
    holds the file. *)
Lemma load_file_supported (f : File) (i : nat) (log : list string) :
  supported f = true -> readable f ->
  exists a : ShapeAsset,
    load_file f i log = (log, Returns (Some a)) /\ file a = f.
Proof.
  unfold supported, load_file, readable. intros H (url & Hurl & Hrest).
  assert (Hn : negb (includes (mime f) "svg") && negb (includes (mime f) "png")
               = false).
  { rewrite <- negb_orb, H. reflexivity. }
  rewrite Hn. unfold lbind, await, lret, readFileAsDataURL. rewrite Hurl.
  destruct (includes (mime f) "svg").
  - destruct Hrest as (text & Htext). unfold readFileAsText. rewrite Htext.
    destruct (extractSVGDimensions text) as [w h]. eexists; split; reflexivity.
  - destruct Hrest as ([w h] & Hsize). unfold getImageDimensions.
    rewrite Hsize. eexists; split; reflexivity.
Qed.


End LoadFacts.



(** Scenario C of the specification: the batch leaves the 50 by 50 vector
    asset and the raster asset in the pool, in that order, and one alert
    that names the rejected file. *)
Example batch_loaded :
  map (fun a => (name (file a), type a, width a, height a))
      (pool (fst (loadShapes Samples.batch fresh)))
  = [("logo.svg", svg, Fin 50, Fin 50); ("mark.png", png, Fin 200, Fin 100)]
  /\ alerts (fst (loadShapes Samples.batch fresh))
     = ["Unsupported file type: notes.txt"].
Proof. split; vm_compute; reflexivity. Qed.

(** C4, at the failing inputs.  A vector file whose root element is
    [<svg width="0" height="0">] enters the pool with width and height
    [0], and one whose root element is [<svg width="auto" height="auto">]
    enters it with width and height [NaN]: the fallback to 100 guards the
    viewBox components but not the parsed [width] and [height]
    attributes. *)
Theorem zero_size_enters_pool :
  (exists a : ShapeAsset,
     loadShapes [Samples.flat_svg] fresh
     = ({| pool := [a]; alerts := [] |}, Returns tt)
     /\ type a = svg /\ width a = Fin 0 /\ height a = Fin 0)
  /\ (exists a : ShapeAsset,
        loadShapes [Samples.auto_svg] fresh
        = ({| pool := [a]; alerts := [] |}, Returns tt)
        /\ type a = svg /\ width a = NaN /\ height a = NaN).
Proof. split; eexists; repeat split. Qed.

(** [v || 100] keeps a component that is a number other than zero and
    replaces every other one. *)
Lemma or_number_spec (v : option number) (d : number) :
  (forall n, v = Some n -> truthy n = true -> or_number v d = n)
  /\ (v = None -> or_number v d = d)
  /\ (forall n, v = Some n -> truthy n = false -> or_number v d = d).
Proof.
  repeat split.
  - intros n -> Hn. unfold or_number. now rewrite Hn.
  - intros ->. reflexivity.
  - intros n -> Hn. unfold or_number. now rewrite Hn.
Qed.

(** The numbers [||] replaces are zero and [NaN]. *)
Lemma truthy_false (n : number) :
  truthy n = false <-> n = NaN \/ exists q : Q, n = Fin q /\ q == 0.
Proof.
  destruct n as [q | | | ]; simpl; split; try discriminate; auto.
  - intro H. right. exists q. split; [ reflexivity | ].
    apply negb_false_iff in H. now apply Qeq_bool_eq.
  - intros [H | (q' & [= <-] & Hq)]; [ discriminate | ].
    apply negb_false_iff. now apply Qeq_eq_bool.
  - intros [H | (q' & H & _)]; discriminate.
  - intros [H | (q' & H & _)]; discriminate.
Qed.



(** The three cases on sample documents: a viewBox gives the dimensions,
    the attributes are parsed when there is no viewBox (a unit suffix is
    ignored), and a bare root element or a document without [svg] element
    gives 100 by 100. *)
Example dimension_priority_samples :
  extractSVGDimensions (Samples.markup Samples.logo_attrs) = (Fin 50, Fin 50)
  /\ (fst (extractSVGDimensions (Samples.markup Samples.sized_attrs)) == Fin 48)%js
  /\ (snd (extractSVGDimensions (Samples.markup Samples.sized_attrs)) == Fin 32)%js
  /\ extractSVGDimensions (Samples.markup Samples.bare_attrs) = (Fin 100, Fin 100)
  /\ extractSVGDimensions "not markup" = (Fin 100, Fin 100).
Proof. repeat split; vm_compute; reflexivity. Qed.

(** ** Vector renderer: the claims *)

(** C2, at the failing inputs.  For a vector asset the last translation
    is computed from the viewBox components read again without the
    fallback to 100, not from the asset's intrinsic size.  The asset
    loaded from [<svg viewBox="0,0,50,50">] is 100 by 100 and is emitted
    with [translate(NaN, NaN)]; the one loaded from
    [<svg viewBox="0 0 0 50">] is 100 by 50 and is emitted with
    [translate(0, -25)]. *)
Theorem svg_offset_misses_fallback :
  (width Samples.comma_asset = Fin 100 /\ height Samples.comma_asset = Fin 100
   /\ includes (renderToSVG [Samples.centered Samples.comma_asset] (Fin 400))
        "translate(100.00, 100.00) rotate(0.00) scale(1.2000) translate(NaN, NaN)"
      = true
   /\ includes (renderToSVG [Samples.centered Samples.comma_asset] (Fin 400))
        "translate(-50, -50)"
      = false)
  /\ (width Samples.thin_asset = Fin 100 /\ height Samples.thin_asset = Fin 50
      /\ includes (renderToSVG [Samples.centered Samples.thin_asset] (Fin 400))
           "translate(100.00, 100.00) rotate(0.00) scale(1.2000) translate(0, -25)"
         = true
      /\ includes (renderToSVG [Samples.centered Samples.thin_asset] (Fin 400))
           "translate(-50, -25)"
         = false).
Proof. repeat split; vm_compute; reflexivity. Qed.

(** *** Strings *)

Lemma string_app_assoc (a b c : string) :
  ((a ++ b) ++ c = a ++ b ++ c)%string.
Proof. induction a as [ | ch a IH]; simpl; [ reflexivity | now rewrite IH ]. Qed.

Lemma string_length_app (a b : string) :
  String.length (a ++ b) = (String.length a + String.length b)%nat.
Proof. induction a as [ | ch a IH]; simpl; [ reflexivity | now rewrite IH ]. Qed.

Lemma all_digits_app (a b : string) :
  all_digits (a ++ b) = all_digits a && all_digits b.
Proof.
  induction a as [ | ch a IH]; simpl; [ reflexivity | ].
  now rewrite IH, andb_assoc.
Qed.

Lemma prefix_app (a b : string) : String.prefix a (a ++ b) = true.
Proof.
  induction a as [ | ch a IH]; simpl; [ now destruct b | ].
  destruct (ascii_dec ch ch); [ exact IH | congruence ].
Qed.

Lemma prefix_app_l (sub a b : string) :
  String.prefix sub a = true -> String.prefix sub (a ++ b) = true.
Proof.
  revert a. induction sub as [ | ch sub IH]; intros a H.
  - now destruct (a ++ b)%string.
  - destruct a as [ | ch' a]; simpl in *; [ discriminate | ].
    destruct (ascii_dec ch ch'); [ now apply IH | discriminate ].
Qed.

Lemma includes_prefix (s sub : string) :
  String.prefix sub s = true -> includes s sub = true.
Proof. destruct s; simpl; intros ->; reflexivity. Qed.

Lemma includes_here (b c : string) : includes (b ++ c) b = true.
Proof. apply includes_prefix, prefix_app. Qed.

Lemma includes_skip (a t sub : string) :
  includes t sub = true -> includes (a ++ t) sub = true.
Proof.
  intro H. induction a as [ | ch a IH]; simpl; [ exact H | ].
  rewrite IH. apply orb_true_r.
Qed.

Lemma includes_app_l (a t sub : string) :
  includes a sub = true -> includes (a ++ t) sub = true.
Proof.
  induction a as [ | ch a IH]; simpl; intro H.
  - rewrite orb_false_r in H. apply includes_prefix.
    destruct sub; [ now destruct t | discriminate ].
  - apply orb_true_iff in H as [H | H].
    + apply orb_true_iff. left.
      exact (prefix_app_l sub (String ch a) t H).
    + rewrite (IH H). apply orb_true_r.
Qed.

Lemma includes_middle (a b c : string) : includes (a ++ b ++ c) b = true.
Proof. apply includes_skip, includes_here. Qed.

(** *** Fixed-point printing *)

Lemma digit_char_is_digit (d : Z) :
  (0 <= d < 10)%Z -> is_digit (digit_char d) = true.
Proof.
  intro H.
  assert (E : (d = 0 \/ d = 1 \/ d = 2 \/ d = 3 \/ d = 4 \/ d = 5 \/ d = 6
               \/ d = 7 \/ d = 8 \/ d = 9)%Z) by lia.
  repeat (destruct E as [-> | E]; [ reflexivity | ]). now subst d.
Qed.

Lemma fixed_digits_length (d : nat) (v : Z) :
  String.length (fixed_digits d v) = d.
Proof.
  revert v. induction d as [ | d IH]; intro v; [ reflexivity | ].
  cbn [fixed_digits]. rewrite string_length_app, IH.
  cbn [String.length]. lia.
Qed.

Lemma fixed_digits_all_digits (d : nat) (v : Z) :
  all_digits (fixed_digits d v) = true.
Proof.
  revert v. induction d as [ | d IH]; intro v; [ reflexivity | ].
  cbn [fixed_digits]. rewrite all_digits_app, IH.
  cbn [all_digits andb].
  rewrite digit_char_is_digit; [ reflexivity | ].
  apply Z.mod_pos_bound. lia.
Qed.

Lemma string_of_uint_digits (u : Decimal.uint) :
  all_digits (DecimalString.NilEmpty.string_of_uint u) = true.
Proof. induction u; simpl; auto. Qed.

Lemma show_N_digits (n : Z) : all_digits (show_N n) = true /\ show_N n <> "".
Proof.
  unfold show_N, DecimalString.NilZero.string_of_uint.
  destruct (N.to_uint (Z.to_N n)) eqn:E; split;
    try reflexivity; try discriminate;
    simpl; apply string_of_uint_digits.
Qed.

(** [toFixed(d)] of a finite number below 1e21 in magnitude prints exactly
    [d] digits after the point ([d > 0]). *)
Theorem toFixed_places (d : nat) (v : number) :
  d <> 0%nat -> fixed_range v -> decimal_places d (toFixed d v).
Proof.
  intros Hd (q & -> & Hq). unfold toFixed.
  replace (Qle_bool (inject_Z (10 ^ 21)) (Qabs q)) with false.
  - destruct d as [ | d']; [ congruence | ].
    set (n := Qfloor _).
    exists (if Qlt_bool q 0 then "-" else ""), (show_N (n / 10 ^ Z.of_nat (S d'))),
      (fixed_digits (S d') n).
    destruct (show_N_digits (n / 10 ^ Z.of_nat (S d'))) as [Hdig Hne].
    repeat split; auto.
    + destruct (Qlt_bool q 0); auto.
    + apply fixed_digits_length.
    + apply fixed_digits_all_digits.
  - symmetry. destruct (Qle_bool _ _) eqn:E; [ | reflexivity ].
    apply Qle_bool_iff in E. lra.
Qed.

Lemma toFixed_places_witness :
  decimal_places 2 (toFixed 2 (Fin (-2.345)))
  /\ decimal_places 4 (toFixed 4 (Fin 0.6)).
Proof.
  split; apply toFixed_places;
    (discriminate || (eexists; split; [ reflexivity | reflexivity ])).
Defined.

(** *** The document *)

Section RenderFacts.

Context {B : Browser}.

Lemma includes_fold (sub : string) (layout : list PlacedShape) :
  forall init : string,
    includes init sub = true
    \/ (exists p, In p layout /\ includes (render_shape p) sub = true) ->
    includes
      (fold_left (fun svgContent shape => (svgContent ++ render_shape shape)%string)
         layout init) sub = true.
Proof.
  induction layout as [ | a rest IH]; intros init H; simpl.
  - destruct H as [H | (p & [] & _)]. exact H.
  - apply IH. destruct H as [H | (p & [<- | Hin] & Hp)].
    + left. now apply includes_app_l.
    + left. now apply includes_skip.
    + right. eauto.
Qed.

(** What a placement emits is part of the document. *)
Lemma renderToSVG_includes (sub : string) (layout : list PlacedShape)
  (size : number) (p : PlacedShape) :
  In p layout -> includes (render_shape p) sub = true ->
  includes (renderToSVG layout size) sub = true.
Proof.
  intros Hin Hp. unfold renderToSVG.
  apply includes_app_l, includes_fold. right. eauto.
Qed.

(** The [<image>] element of a placement. *)
Lemma render_shape_image (p : PlacedShape) :
  embedded_as_image p ->
  render_shape p
  = ("  <image " ++ nl
     ++ "    href=" ++ dq ++ dataUrl (asset p) ++ dq ++ " " ++ nl
     ++ "    width=" ++ dq ++ toString (width (asset p)) ++ dq ++ " " ++ nl
     ++ "    height=" ++ dq ++ toString (height (asset p)) ++ dq ++ " " ++ nl
     ++ "    "
     ++ ("transform=" ++ dq ++ transform_of p
         ++ " translate(" ++ toString (neg (width (asset p)) / Fin 2)%js ++ ", "
         ++ toString (neg (height (asset p)) / Fin 2)%js ++ ")" ++ dq)
     ++ nl ++ "  />" ++ nl)%string.
Proof.
  intro H. unfold render_shape.
  rewrite !string_app_assoc.
  destruct H as [-> | [-> | ->]]; [ | destruct (type (asset p)).. ];
    reflexivity.
Qed.

End RenderFacts.

(** For every placement that is embedded as an image (a png asset, or an
    asset without stored markup), the document holds a [transform]
    attribute that composes, in this order, [translate] to the center
    with two decimals each, [rotate] with two decimals, [scale] with four
    decimals, and [translate] by minus half the intrinsic width and
    height of the asset. *)
Theorem image_transform_composition
  (B : Browser) (layout : list PlacedShape) (size : number) (p : PlacedShape) :
  In p layout ->
  embedded_as_image p ->
  fixed_range (x p) -> fixed_range (y p) ->
  fixed_range (rotation p) -> fixed_range (scale p) ->
  exists sx sy sr ss : string,
    includes (renderToSVG layout size)
      ("transform=" ++ dq
       ++ "translate(" ++ sx ++ ", " ++ sy ++ ") rotate(" ++ sr
       ++ ") scale(" ++ ss ++ ")"
       ++ " translate(" ++ toString (neg (width (asset p)) / Fin 2)%js ++ ", "
       ++ toString (neg (height (asset p)) / Fin 2)%js ++ ")" ++ dq)%string
    = true
    /\ sx = toFixed 2 (x p) /\ decimal_places 2 sx
    /\ sy = toFixed 2 (y p) /\ decimal_places 2 sy
    /\ sr = toFixed 2 (rotation p) /\ decimal_places 2 sr
    /\ ss = toFixed 4 (scale p) /\ decimal_places 4 ss.
Proof.
  intros Hin Himg Hx Hy Hr Hs.
  exists (toFixed 2 (x p)), (toFixed 2 (y p)), (toFixed 2 (rotation p)),
    (toFixed 4 (scale p)).
  split.
  - apply renderToSVG_includes with p; [ exact Hin | ].
    rewrite (render_shape_image Himg). unfold transform_of.
    rewrite !string_app_assoc.
    match goal with
    | |- includes ?doc ?sub = true =>
        let pre := constr:(("  <image " ++ nl
          ++ "    href=" ++ dq ++ dataUrl (asset p) ++ dq ++ " " ++ nl
          ++ "    width=" ++ dq ++ toString (width (asset p)) ++ dq ++ " " ++ nl
          ++ "    height=" ++ dq ++ toString (height (asset p)) ++ dq ++ " " ++ nl
          ++ "    ")%string) in
        let post := constr:((nl ++ "  />" ++ nl)%string) in
        replace doc with (pre ++ sub ++ post)%string
          by (rewrite !string_app_assoc; reflexivity)
    end.
    apply includes_middle.
  - repeat split; try reflexivity; apply toFixed_places; auto.
Qed.

Lemma image_transform_composition_witness :
  exists sx sy sr ss : string,
    includes (renderToSVG Samples.scenarioA_layout (Fin 400))
      ("transform=" ++ dq
       ++ "translate(" ++ sx ++ ", " ++ sy ++ ") rotate(" ++ sr
       ++ ") scale(" ++ ss ++ ")"
       ++ " translate("
       ++ toString (neg (width (asset (nth 1 Samples.scenarioA_layout Samples.origin)))
                    / Fin 2)%js
       ++ ", "
       ++ toString (neg (height (asset (nth 1 Samples.scenarioA_layout Samples.origin)))
                    / Fin 2)%js
       ++ ")" ++ dq)%string
    = true
    /\ sx = toFixed 2 (x (nth 1 Samples.scenarioA_layout Samples.origin))
    /\ decimal_places 2 sx
    /\ sy = toFixed 2 (y (nth 1 Samples.scenarioA_layout Samples.origin))
    /\ decimal_places 2 sy
    /\ sr = toFixed 2 (rotation (nth 1 Samples.scenarioA_layout Samples.origin))
    /\ decimal_places 2 sr
    /\ ss = toFixed 4 (scale (nth 1 Samples.scenarioA_layout Samples.origin))
    /\ decimal_places 4 ss.
Proof.
  apply (@image_transform_composition Samples.browser Samples.scenarioA_layout
           (Fin 400) (nth 1 Samples.scenarioA_layout Samples.origin)).
  - simpl. auto.
  - left. reflexivity.
  - eexists. split; reflexivity.
  - eexists. split; reflexivity.
  - eexists. split; reflexivity.
  - eexists. split; reflexivity.
Defined.

(** For a vector asset whose markup has a viewBox with a third and a
    fourth component that are numbers other than zero, and whose
    intrinsic size is the one [extractSVGDimensions] gives for that
    markup, the group emitted carries the same composition: the transform
    of the placement followed by [translate] by minus half the intrinsic
    width and height. *)
Theorem group_transform_composition
  (B : Browser) (p : PlacedShape) (s vb : string) (el : SvgElement)
  (w h : number) :
  type (asset p) = svg ->
  svgContent (asset p) = Some s -> s <> "" ->
  DOMParser_svg s = Some el ->
  getAttribute el "viewBox" = Some vb -> vb <> "" ->
  viewBox_size vb = (Some w, Some h) ->
  truthy w = true -> truthy h = true ->
  (width (asset p), height (asset p)) = extractSVGDimensions s ->
  includes (render_shape p)
    ("transform=" ++ dq ++ transform_of p
     ++ " translate(" ++ toString (neg (width (asset p)) / Fin 2)%js ++ ", "
     ++ toString (neg (height (asset p)) / Fin 2)%js ++ ")" ++ dq)%string
  = true.
Proof.
  intros Htype Hcontent Hs Hel Hvb Hvbne Hsize Hw Hh Hdims.
  unfold extractSVGDimensions in Hdims. rewrite Hel, Hvb in Hdims.
  unfold render_shape. rewrite Htype, Hcontent.
  destruct s as [ | c0 s0]; [ congruence | ]. rewrite Hel, Hvb.
  destruct vb as [ | c1 vb1]; [ congruence | ].
  cbn [or_string]. rewrite Hsize in *. cbn [or_number] in Hdims.
  rewrite Hw, Hh in Hdims. injection Hdims as -> ->.
  cbn [neg_half].
  match goal with
  | |- includes ?doc ?sub = true =>
      replace doc with ("  <g " ++ sub
        ++ (">" ++ nl
            ++ "    <svg viewBox=" ++ dq ++ String c1 vb1 ++ dq
            ++ " width=" ++ dq ++ toString_opt (Some w) ++ dq
            ++ " height=" ++ dq ++ toString_opt (Some h) ++ dq ++ ">" ++ nl
            ++ "      " ++ innerHTML el ++ nl
            ++ "    </svg>" ++ nl
            ++ "  </g>" ++ nl))%string
        by (rewrite !string_app_assoc; reflexivity)
  end.
  apply includes_middle.
Qed.

Lemma group_transform_composition_witness :
  includes
    (render_shape (Samples.centered Samples.logo_asset))
    ("transform=" ++ dq
     ++ transform_of (Samples.centered Samples.logo_asset)
     ++ " translate("
     ++ toString (neg (width (asset (Samples.centered Samples.logo_asset))) / Fin 2)%js
     ++ ", "
     ++ toString (neg (height (asset (Samples.centered Samples.logo_asset))) / Fin 2)%js
     ++ ")" ++ dq)%string
  = true.
Proof.
  apply (@group_transform_composition Samples.browser
           (Samples.centered Samples.logo_asset)
           (Samples.markup Samples.logo_attrs) "0 0 50 50"
           {| attributes := Samples.logo_attrs; innerHTML := "" |}
           (Fin 50) (Fin 50));
    first [ vm_compute; reflexivity | vm_compute; discriminate ].
Defined.

(** ** Further properties of the layout engine *)

(** For a non-empty pool and a finite shape count [q] the layout has one
    placement per integer [i >= 0] below [q], that is [ceil(q)] of them
    when [q] is positive: a fractional count is rounded up. *)
Theorem layout_length_ceiling
  (random : nat -> Q) (shapes : list ShapeAsset) (opts : PatternOptions) (q : Q) :
  unit_interval random ->
  shapes <> [] ->
  shapeCount opts = Fin q ->
  exists layout : list PlacedShape,
    generatePatternLayout random shapes opts = Returns layout
    /\ List.length layout = Z.to_nat (Qceiling q).
Proof.
  intros Hr Hne Hq.
  assert (Hk : loop_bound (shapeCount opts) = Some (Z.to_nat (Qceiling q)))
    by (rewrite Hq; reflexivity).
  destruct (generatePatternLayout_total shapes opts Hr Hk) as (layout & Hrun).
  exists layout. split; [ exact Hrun | ].
  destruct (@generatePatternLayout_inv random shapes opts layout Hne Hrun)
    as (k & Hk' & Hlen & _).
  congruence.
Qed.

Lemma layout_length_ceiling_witness :
  exists layout : list PlacedShape,
    generatePatternLayout Samples.quarters [Samples.raster]
      {| shapeCount := Fin 2.5; offsetIntensity := Fin 0.3;
         enableRotation := true; canvasSize := Fin 1080 |}
    = Returns layout
    /\ List.length layout = Z.to_nat (Qceiling 2.5).
Proof.
  apply layout_length_ceiling;
    [ exact quarters_unit | discriminate | reflexivity ].
Defined.

(** The layout engine has no failure mode: with draws in the unit interval
    it never throws, and it fails to return only for an infinite shape
    count and a non-empty pool, where the loop does not end. *)
Theorem layout_never_throws
  (random : nat -> Q) (shapes : list ShapeAsset) (opts : PatternOptions) :
  unit_interval random ->
  (exists layout, generatePatternLayout random shapes opts = Returns layout)
  \/ (generatePatternLayout random shapes opts = Diverges
      /\ shapeCount opts = PosInf /\ shapes <> []).
Proof.
  intro Hr. destruct (loop_bound (shapeCount opts)) as [k | ] eqn:Hk.
  - left. now apply generatePatternLayout_total with k.
  - destruct shapes as [ | a0 rest] eqn:E.
    + left. exists []. reflexivity.
    + right. unfold generatePatternLayout. rewrite Hk.
      repeat split; [ | discriminate ].
      destruct (shapeCount opts); simpl in Hk; congruence.
Qed.

Lemma layout_never_throws_witness :
  (exists layout,
     generatePatternLayout Samples.quarters [Samples.raster] Samples.jittered
     = Returns layout)
  \/ (generatePatternLayout Samples.quarters [Samples.raster] Samples.jittered
      = Diverges
      /\ shapeCount Samples.jittered = PosInf /\ [Samples.raster] <> []).
Proof. apply layout_never_throws. exact quarters_unit. Defined.

(** Every index below a positive integer count names a cell of the
    [gridSize] by [gridSize] grid, with [gridSize = ceil(sqrt(count))], and
    two different indices name different cells. *)
Theorem grid_cells_distinct (n i j : Z) :
  (0 <= i < n)%Z -> (0 <= j < n)%Z ->
  let g := Zceil_sqrt n in
  (0 <= i mod g < g /\ 0 <= i / g < g)%Z
  /\ ((i mod g = j mod g /\ i / g = j / g)%Z -> i = j).
Proof.
  intros Hi Hj g.
  assert (Hn : (0 < n)%Z) by lia.
  pose proof (Zceil_sqrt_pos Hn) as Hg. fold g in Hg.
  pose proof (@Zceil_sqrt_spec n ltac:(lia)) as (_ & Hsq & _).
  cbv zeta in Hsq. fold g in Hsq.
  split.
  - split; [ apply Z.mod_pos_bound; lia | ].
    split; [ apply Z.div_pos; lia | apply Z.div_lt_upper_bound; lia ].
  - intros [Hm Hd].
    rewrite (Z.div_mod i g), (Z.div_mod j g) by lia. congruence.
Qed.

Lemma grid_cells_distinct_witness :
  (0 <= 4 mod Zceil_sqrt 5 < Zceil_sqrt 5
   /\ 0 <= 4 / Zceil_sqrt 5 < Zceil_sqrt 5)%Z
  /\ ((4 mod Zceil_sqrt 5 = 1 mod Zceil_sqrt 5
       /\ 4 / Zceil_sqrt 5 = 1 / Zceil_sqrt 5)%Z -> 4%Z = 1%Z).
Proof. apply (@grid_cells_distinct 5 4 1); lia. Defined.

(** Scenario A of the specification, for every random source: one raster
    asset of 200 by 100, four shapes, no jitter, no rotation, canvas 400.
    The grid is 2 by 2 with cells of 200, and the four placements are
    centered at (100,100), (300,100), (100,300), (300,300) with rotation 0
    and scale 0.6. *)
Theorem scenario_A (random : nat -> Q) :
  unit_interval random ->
  gridSize Samples.scenarioA = Fin 2
  /\ (cellSize Samples.scenarioA == Fin 200)%js
  /\ exists p0 p1 p2 p3 : PlacedShape,
       generatePatternLayout random [Samples.raster] Samples.scenarioA
       = Returns [p0; p1; p2; p3]
       /\ placed_at p0 Samples.raster 100 100 0.6
       /\ placed_at p1 Samples.raster 300 100 0.6
       /\ placed_at p2 Samples.raster 100 300 0.6
       /\ placed_at p3 Samples.raster 300 300 0.6.
Proof.
  intro Hr. split; [ reflexivity | ]. split; [ reflexivity | ].
  assert (Hne : [Samples.raster] <> []) by discriminate.
  pose proof scenarioA_valid as Hv.
  destruct (generatePatternLayout_total [Samples.raster] Samples.scenarioA Hr
              (valid_loop_bound Hv)) as (layout & Hrun).
  destruct (@generatePatternLayout_inv random _ _ layout Hne Hrun)
    as (k & Hk & Hlen & Hnth).
  rewrite (valid_loop_bound Hv) in Hk. injection Hk as <-.
  assert (Hat : forall (i : nat) (p : PlacedShape),
             nth_error layout i = Some p ->
             placed_at p Samples.raster
               (inject_Z (Z.of_nat i mod 2) * 200 + 100)
               (inject_Z (Z.of_nat i / 2) * 200 + 100) 0.6).
  { intros i p Hi. destruct (Hnth i p Hi) as (st & st' & Hp).
    destruct (@place_center random _ _ 4 0 400 i st st' p Hv Hp)
      as (qx & qy & Hx & Hy & Hqx & Hqy).
    apply place_inv in Hp as (Ha & _ & _ & Hrot & Hscale).
    apply array_get_In in Ha. destruct Ha as [Ha | []].
    unfold placed_at. rewrite Hx, Hy, Hrot, Hscale, <- Ha.
    change (Zceil_sqrt 4) with 2%Z in Hqx, Hqy.
    repeat split.
    - simpl. rewrite Hqx. field.
    - simpl. rewrite Hqy. field. }
  destruct layout as [ | p0 [ | p1 [ | p2 [ | p3 [ | p4 rest]]]]];
    try discriminate Hlen.
  exists p0, p1, p2, p3. split; [ exact Hrun | ].
  repeat split; try apply (Hat 0%nat p0 eq_refl); try apply (Hat 1%nat p1 eq_refl);
    try apply (Hat 2%nat p2 eq_refl); try apply (Hat 3%nat p3 eq_refl).
Qed.

Lemma scenario_A_witness :
  gridSize Samples.scenarioA = Fin 2
  /\ (cellSize Samples.scenarioA == Fin 200)%js
  /\ exists p0 p1 p2 p3 : PlacedShape,
       generatePatternLayout Samples.zeros [Samples.raster] Samples.scenarioA
       = Returns [p0; p1; p2; p3]
       /\ placed_at p0 Samples.raster 100 100 0.6
       /\ placed_at p1 Samples.raster 300 100 0.6
       /\ placed_at p2 Samples.raster 100 300 0.6
       /\ placed_at p3 Samples.raster 300 300 0.6.
Proof. exact (scenario_A zeros_unit). Defined.

(** ** Further properties of the asset normalizer *)

(** When the root element has a non-empty viewBox, neither dimension is
    zero or [NaN]: a component that is missing, zero or not a number has
    been replaced by 100. *)
Theorem viewBox_dimensions_truthy
  (B : Browser) (s vb : string) (el : SvgElement) :
  DOMParser_svg s = Some el ->
  getAttribute el "viewBox" = Some vb -> vb <> "" ->
  truthy (fst (extractSVGDimensions s)) = true
  /\ truthy (snd (extractSVGDimensions s)) = true.
Proof.
  intros Hel Hvb Hne. unfold extractSVGDimensions. rewrite Hel, Hvb.
  destruct vb as [ | ch rest]; [ congruence | ].
  destruct (viewBox_size (String ch rest)) as [w h]. cbn [fst snd].
  assert (H : forall v, truthy (or_number v (Fin 100)) = true).
  { intros [n | ]; [ | reflexivity ]. unfold or_number.
    destruct (truthy n) eqn:E; [ exact E | reflexivity ]. }
  split; apply H.
Qed.

Lemma viewBox_dimensions_truthy_witness :
  truthy (fst (extractSVGDimensions (Samples.markup Samples.thin_attrs))) = true
  /\ truthy (snd (extractSVGDimensions (Samples.markup Samples.thin_attrs))) = true.
Proof.
  apply (@viewBox_dimensions_truthy Samples.browser
           (Samples.markup Samples.thin_attrs) "0 0 0 50"
           {| attributes := Samples.thin_attrs; innerHTML := "" |});
    first [ vm_compute; reflexivity | discriminate ].
Defined.

(** A raster file that is read and decoded to [w] by [h] pixels enters
    the pool as a png asset of that size. *)
Theorem raster_dimensions
  (B : Browser) (f : File) (url : string) (w h : nat) (s : Session) :
  includes (mime f) "svg" = false ->
  includes (mime f) "png" = true ->
  FileReader_readAsDataURL f = Some url ->
  Image_onload url = Some (w, h) ->
  exists a : ShapeAsset,
    loadShapes [f] s
    = ({| pool := pool s ++ [a]; alerts := alerts s |}, Returns tt)
    /\ file a = f /\ type a = png /\ dataUrl a = url
    /\ svgContent a = None
    /\ width a = of_nat w /\ height a = of_nat h.
Proof.
  intros Hsvg Hpng Hurl Hsize.
  unfold loadShapes, load_loop, lbind, load_file.
  rewrite Hsvg, Hpng. cbn [negb andb].
  unfold lbind, await, readFileAsDataURL. rewrite Hurl.
  unfold getImageDimensions. rewrite Hsize. unfold lret.
  eexists. split; [ reflexivity | ]. repeat split.
Qed.

Lemma raster_dimensions_witness :
  exists a : ShapeAsset,
    loadShapes [Samples.mark_png] fresh
    = ({| pool := pool fresh ++ [a]; alerts := alerts fresh |}, Returns tt)
    /\ file a = Samples.mark_png /\ type a = png
    /\ dataUrl a = Samples.mark_url
    /\ svgContent a = None
    /\ width a = of_nat 200 /\ height a = of_nat 100.
Proof.
  apply (@raster_dimensions Samples.browser Samples.mark_png Samples.mark_url
           200 100 fresh); reflexivity.
Defined.



(** *** Identifiers *)

Lemma show_N_inj (a b : Z) :
  (0 <= a)%Z -> (0 <= b)%Z -> show_N a = show_N b -> a = b.
Proof.
  intros Ha Hb H. unfold show_N in H.
  assert (Hnn : forall n : N, N.to_uint n <> Decimal.Nil).
  { intros [ | p]; [ discriminate | apply DecimalPos.Unsigned.to_uint_nonnil ]. }
  apply (f_equal DecimalString.NilZero.uint_of_string) in H.
  rewrite !DecimalString.NilZero.usu in H by apply Hnn.
  injection H as H. apply DecimalN.Unsigned.to_uint_inj in H. lia.
Qed.

Lemma frac_digits_zero (fuel : nat) (r : Q) :
  r == 0 -> frac_digits fuel r = "".
Proof.
  intro H. destruct fuel as [ | f]; [ reflexivity | ].
  cbn [frac_digits]. now rewrite (Qeq_eq_bool _ _ H).
Qed.

(** An index prints as its decimal digits. *)
Lemma toString_of_nat (i : nat) : toString (of_nat i) = show_N (Z.of_nat i).
Proof.
  unfold toString, of_nat, of_Z.
  assert (Hnn : 0 <= inject_Z (Z.of_nat i)).
  { change 0 with (inject_Z 0). rewrite <- Zle_Qle. lia. }
  replace (Qlt_bool (inject_Z (Z.of_nat i)) 0) with false
    by (symmetry; now apply Qlt_bool_false).
  assert (Habs : Qabs (inject_Z (Z.of_nat i)) = inject_Z (Z.of_nat i)).
  { unfold Qabs, inject_Z. now rewrite Z.abs_eq by lia. }
  rewrite Habs, Qfloor_Z.
  assert (Hfrac : frac_digits 20
                    (inject_Z (Z.of_nat i) - inject_Z (Z.of_nat i)) = "").
  { apply frac_digits_zero. ring. }
  rewrite Hfrac. cbn [append]. clear.
  generalize (show_N (Z.of_nat i)). intro t.
  induction t as [ | c t IH]; cbn [append]; [ reflexivity | now rewrite IH ].
Qed.

(** Two texts that end with a dash and a run of digits are equal only if
    the runs are. *)
Lemma dash_digits_inj (s1 s2 d1 d2 : string) :
  all_digits d1 = true -> all_digits d2 = true ->
  (s1 ++ "-" ++ d1 = s2 ++ "-" ++ d2)%string -> d1 = d2.
Proof.
  assert (Hno : forall s d t, all_digits d = true -> d <> (s ++ "-" ++ t)%string).
  { intros s d t Hd E. rewrite E in Hd. rewrite all_digits_app in Hd.
    apply andb_true_iff in Hd as [_ Hd]. discriminate Hd. }
  revert s2. induction s1 as [ | c1 s1 IH]; intros [ | c2 s2] H1 H2 E;
    cbn [append] in E.
  - now injection E.
  - injection E as _ E. exfalso. exact (Hno s2 d1 d2 H1 E).
  - injection E as _ E. exfalso. symmetry in E. exact (Hno s1 d2 d1 H2 E).
  - injection E as _ E. now apply (IH s2).
Qed.

Lemma string_app_cancel (p a b : string) :
  (p ++ a = p ++ b)%string -> a = b.
Proof.
  induction p as [ | c p IH]; cbn [append]; intro E; [ exact E | ].
  injection E as E. now apply IH.
Qed.

Section IdFacts.

Context {B : Browser}.

Lemma shape_id_inj (i j : nat) : shape_id i = shape_id j -> i = j.
Proof.
  unfold shape_id. intro E. apply string_app_cancel in E.
  rewrite !toString_of_nat in E.
  apply dash_digits_inj in E; try apply show_N_digits.
  apply show_N_inj in E; lia.
Qed.

Lemma load_file_id (f : File) (i : nat) (log log' : list string) (a : ShapeAsset) :
  load_file f i log = (log', Returns (Some a)) -> id a = shape_id i.
Proof.
  unfold load_file, lbind, await, lret, alert, shape_id.
  generalize (toString (of_Z (Date_now i))) (toString (of_nat i)).
  intros t d.
  destruct (negb _ && negb _); [ discriminate | ].
  destruct (readFileAsDataURL f) as [url | e | ]; try discriminate.
  destruct (includes (mime f) "svg").
  - destruct (readFileAsText f) as [text | e | ]; try discriminate.
    destruct (extractSVGDimensions text). intros [= _ <-]. reflexivity.
  - destruct (getImageDimensions url) as [[w h] | e | ]; try discriminate.
    intros [= _ <-]. reflexivity.
Qed.

(** The assets a batch pushes carry the identifiers of increasing batch
    indices. *)
Lemma load_loop_ids (files : list File) :
  forall (i : nat) (acc new : list ShapeAsset) (log log' : list string),
    load_loop files i acc log = (log', Returns new) ->
    exists (pushed : list ShapeAsset) (js : list nat),
      new = acc ++ pushed
      /\ map id pushed = map shape_id js
      /\ Forall (fun j => (i <= j)%nat) js /\ NoDup js.
Proof.
  induction files as [ | f rest IH]; intros i acc new log log' Hrun.
  - injection Hrun as _ <-. exists [], []. rewrite app_nil_r.
    repeat split; constructor.
  - simpl in Hrun. unfold lbind at 1 in Hrun.
    destruct (load_file f i log) as [log1 [[a | ] | e | ]] eqn:Hf;
      try discriminate.
    + apply load_file_id in Hf.
      apply IH in Hrun as (pushed & js & -> & Hids & Hge & Hnd).
      exists (a :: pushed), (i :: js). rewrite <- app_assoc.
      repeat split.
      * simpl. now rewrite Hf, Hids.
      * constructor; [ lia | ].
        eapply Forall_impl; [ | exact Hge ]. simpl. intros; lia.
      * constructor; [ | exact Hnd ].
        intro Hin. rewrite Forall_forall in Hge. specialize (Hge i Hin). lia.
    + apply IH in Hrun as (pushed & js & -> & Hids & Hge & Hnd).
      exists pushed, js. repeat split; auto.
      eapply Forall_impl; [ | exact Hge ]. simpl. intros; lia.
Qed.

End IdFacts.

(** The identifiers given within one [loadShapes] batch are pairwise
    different: each ends with the batch index of its file. *)
Theorem batch_ids_distinct
  (B : Browser) (files : list File) (s s' : Session) :
  loadShapes files s = (s', Returns tt) ->
  exists new : list ShapeAsset,
    pool s' = pool s ++ new /\ NoDup (map id new).
Proof.
  unfold loadShapes.
  destruct (load_loop files 0 [] (alerts s)) as [log [new | e | ]] eqn:Hrun;
    intros [= <-].
  apply load_loop_ids in Hrun as (pushed & js & -> & Hids & _ & Hnd).
  exists pushed. split; [ reflexivity | ].
  rewrite Hids. clear Hids.
  induction js as [ | j js IH]; simpl; constructor.
  - intro Hin. apply in_map_iff in Hin as (j' & E & Hin').
    apply shape_id_inj in E. subst j'. now inversion Hnd.
  - apply IH. now inversion Hnd.
Qed.

Lemma batch_ids_distinct_witness :
  exists new : list ShapeAsset,
    pool (fst (loadShapes Samples.batch fresh)) = pool fresh ++ new
    /\ NoDup (map id new).
Proof.
  apply (@batch_ids_distinct Samples.browser Samples.batch fresh).
  vm_compute. reflexivity.
Defined.

(** Across batches the identifiers can repeat: two batches processed
    while [Date.now()] gives the same value both produce the identifier
    of index 0. *)
Example ids_repeat_across_batches :
  map id (pool (fst (loadShapes [Samples.mark_png]
                       (fst (loadShapes [Samples.logo_svg] fresh)))))
  = ["shape-1700000000000-0"; "shape-1700000000000-0"].
Proof. vm_compute. reflexivity. Qed.

(** ** Further properties of the vector renderer *)

(** A vector asset whose stored markup has no [svg] element adds nothing
    to the document; the renderer has no other output, so the omission is
    not reported. *)
Theorem unparsable_markup_omitted
  (B : Browser) (p : PlacedShape) (s : string) (size : number) :
  type (asset p) = svg ->
  svgContent (asset p) = Some s -> s <> "" ->
  DOMParser_svg s = None ->
  render_shape p = ""
  /\ renderToSVG [p] size = (svg_header size ++ "</svg>")%string.
Proof.
  intros Htype Hcontent Hne Hparse.
  assert (H : render_shape p = "").
  { unfold render_shape. rewrite Htype, Hcontent.
    destruct s as [ | c s']; [ congruence | ]. now rewrite Hparse. }
  split; [ exact H | ]. unfold renderToSVG. cbn [fold_left]. rewrite H.
  f_equal. generalize (svg_header size). intro t.
  induction t as [ | c t IH]; cbn [append]; [ reflexivity | now rewrite IH ].
Qed.

Lemma unparsable_markup_omitted_witness :
  render_shape (Samples.centered Samples.page_asset) = ""
  /\ renderToSVG [Samples.centered Samples.page_asset] (Fin 400)
     = (svg_header (Fin 400) ++ "</svg>")%string.
Proof.
  apply (@unparsable_markup_omitted Samples.browser
           (Samples.centered Samples.page_asset) Samples.page_text (Fin 400));
    first [ reflexivity | discriminate ].
Defined.

(** ** Raster renderer: the image cache *)

Lemma lookup_Map_set (m : list (string * string)) (k k' v : string) :
  lookup k (Map_set m k' v) = if String.eqb k k' then Some v else lookup k m.
Proof.
  induction m as [ | [k0 v0] m IH]; cbn [Map_set lookup].
  - reflexivity.
  - destruct (String.eqb_spec k' k0) as [-> | Hne]; cbn [lookup].
    + destruct (String.eqb_spec k k0); reflexivity.
    + rewrite IH. destruct (String.eqb_spec k k0) as [-> | Hne'].
      * destruct (String.eqb_spec k0 k'); [ congruence | reflexivity ].
      * reflexivity.
Qed.

Lemma keys_Map_set (m : list (string * string)) (k v : string) :
  lookup k m = None -> map fst (Map_set m k v) = map fst m ++ [k].
Proof.
  induction m as [ | [k0 v0] m IH]; cbn [Map_set lookup map fst app]; intro H.
  - reflexivity.
  - destruct (String.eqb_spec k k0); [ discriminate | ].
    cbn [map fst]. now rewrite IH.
Qed.

Lemma Map_has_keys (m : list (string * string)) (k : string) :
  Map_has m k = existsb (String.eqb k) (map fst m).
Proof.
  unfold Map_has. induction m as [ | [k0 v0] m IH]; cbn [lookup map fst existsb].
  - reflexivity.
  - destruct (String.eqb k k0); [ reflexivity | exact IH ].
Qed.

Lemma Map_has_false (m : list (string * string)) (k : string) :
  Map_has m k = false -> lookup k m = None.
Proof. unfold Map_has. now destruct (lookup k m). Qed.

Section RasterFacts.

Context {B : Browser}.

Lemma loadImage_decodable (src : string) :
  decodable src -> loadImage src = Returns src.
Proof. intros (size & H). unfold loadImage. now rewrite H. Qed.

Lemma loadImage_undecodable (src : string) :
  ~ decodable src -> loadImage src = Throws "Event".
Proof.
  intro H. unfold loadImage. destruct (Image_onload src) as [size | ] eqn:E.
  - exfalso. apply H. now exists size.
  - reflexivity.
Qed.

Lemma decodable_dec (src : string) : decodable src \/ ~ decodable src.
Proof.
  unfold decodable. destruct (Image_onload src) as [size | ].
  - left. now exists size.
  - right. intros (size & H). discriminate.
Qed.

(** When every image it asks for loads, the first loop asks once for
    each new asset id, in order of first appearance, and the cache then
    maps every id to the image of the first placement that has it. *)
Lemma load_images_returns (layout : list PlacedShape) :
  forall (cache : list (string * string)) (requested : list string),
    Forall (fun s => decodable (image_source s))
      (first_occurrences (map fst cache) layout) ->
    exists cache' : list (string * string),
      load_images layout cache requested
      = (requested ++ map image_source (first_occurrences (map fst cache) layout),
         Returns cache')
      /\ forall k : string,
           lookup k cache'
           = match lookup k cache with
             | Some v => Some v
             | None =>
                 option_map image_source
                   (find (fun t => String.eqb k (id (asset t))) layout)
             end.
Proof.
  induction layout as [ | s rest IH]; intros cache requested Hall;
    cbn [load_images first_occurrences].
  - exists cache. rewrite app_nil_r. split; [ reflexivity | ].
    intro k. now destruct (lookup k cache).
  - cbn [first_occurrences] in Hall. rewrite Map_has_keys in *.
    destruct (existsb (String.eqb (id (asset s))) (map fst cache)) eqn:Hseen.
    + destruct (IH cache requested Hall) as (cache' & -> & Hlook).
      exists cache'. split; [ reflexivity | ]. intro k. rewrite Hlook.
      destruct (lookup k cache) as [v | ] eqn:Hk; [ reflexivity | ].
      cbn [find]. destruct (String.eqb_spec k (id (asset s))) as [-> | ];
        [ | reflexivity ].
      rewrite <- Map_has_keys in Hseen. unfold Map_has in Hseen.
      rewrite Hk in Hseen. discriminate.
    + inversion Hall as [ | ? ? Hs Hrest]; subst.
      cbv zeta. fold (image_source s). rewrite (loadImage_decodable Hs).
      assert (Hnone : lookup (id (asset s)) cache = None).
      { apply Map_has_false. now rewrite Map_has_keys. }
      specialize (IH (Map_set cache (id (asset s)) (image_source s))
                    (requested ++ [image_source s])).
      rewrite (@keys_Map_set cache (id (asset s)) (image_source s) Hnone) in IH.
      destruct (IH Hrest) as (cache' & -> & Hlook).
      exists cache'. split.
      * cbn [map]. now rewrite <- app_assoc.
      * intro k. rewrite Hlook, lookup_Map_set. cbn [find].
        destruct (String.eqb_spec k (id (asset s))) as [-> | ].
        -- now rewrite Hnone.
        -- reflexivity.
Qed.

(** When an image it asks for does not load, the first loop is rejected
    with the error event. *)
Lemma load_images_throws (layout : list PlacedShape) :
  forall (cache : list (string * string)) (requested : list string),
    Exists (fun s => ~ decodable (image_source s))
      (first_occurrences (map fst cache) layout) ->
    exists requested' : list string,
      load_images layout cache requested = (requested', Throws "Event").
Proof.
  induction layout as [ | s rest IH]; intros cache requested Hex;
    cbn [load_images first_occurrences] in *.
  - inversion Hex.
  - rewrite Map_has_keys.
    destruct (existsb (String.eqb (id (asset s))) (map fst cache)) eqn:Hseen.
    + now apply IH.
    + cbv zeta. fold (image_source s).
      destruct (decodable_dec (image_source s)) as [Hs | Hs].
      * rewrite (loadImage_decodable Hs).
        assert (Hnone : lookup (id (asset s)) cache = None).
        { apply Map_has_false. now rewrite Map_has_keys. }
        apply IH. rewrite (@keys_Map_set cache (id (asset s)) (image_source s) Hnone).
        inversion Hex; subst; [ contradiction | assumption ].
      * rewrite (loadImage_undecodable Hs). eauto.
Qed.

(** With an image for every asset id of the layout the second loop
    completes. *)
Lemma draw_shapes_returns (img : PlacedShape -> string)
  (cache : list (string * string)) (layout : list PlacedShape) :
  forall done : list CanvasCall,
    (forall s, In s layout -> lookup (id (asset s)) cache = Some (img s)) ->
    draw_shapes layout cache done
    = (done ++ flat_map (fun s => frame_calls s ++ paint_calls s (img s)) layout,
       Returns tt).
Proof.
  induction layout as [ | s rest IH]; intros done Hcache;
    cbn [draw_shapes flat_map].
  - now rewrite app_nil_r.
  - rewrite (Hcache s (or_introl eq_refl)).
    rewrite IH by (intros t Ht; apply Hcache; now right).
    now rewrite <- !app_assoc.
Qed.

Lemma flat_map_ext_in (A C : Type) (f g : A -> list C) (l : list A) :
  (forall a, In a l -> f a = g a) -> flat_map f l = flat_map g l.
Proof.
  induction l as [ | a l IH]; intro H; cbn [flat_map]; [ reflexivity | ].
  rewrite (H a (or_introl eq_refl)), IH; [ reflexivity | ].
  intros b Hb. apply H. now right.
Qed.

Lemma image_of_found (layout : list PlacedShape) (s : PlacedShape) :
  In s layout ->
  option_map image_source
    (find (fun t => String.eqb (id (asset s)) (id (asset t))) layout)
  = Some (image_of layout s).
Proof.
  intro Hin. unfold image_of.
  destruct (find _ layout) as [t | ] eqn:E; [ reflexivity | ].
  exfalso. apply (find_none _ _ E) in Hin.
  now rewrite String.eqb_refl in Hin.
Qed.

End RasterFacts.

Section RasterTheorems.

Context {B : Browser}.

Lemma renderToCanvas_returns (layout : list PlacedShape) (c : Canvas)
  (size : number) :
  context2d c = true ->
  Forall (fun s => decodable (image_source s)) (first_occurrences [] layout) ->
  renderToCanvas layout c size
  = {| canvas_after :=
         {| context2d := true;
            calls := calls c ++ background_calls size ++ painted layout |};
       requested_images := map image_source (first_occurrences [] layout);
       completion := Returns tt |}.
Proof.
  intros Hctx Hall. unfold renderToCanvas. rewrite Hctx. cbn [negb].
  destruct (load_images_returns layout [] [] Hall) as (cache & -> & Hlook).
  cbv zeta.
  rewrite (@draw_shapes_returns (image_of layout) cache layout).
  - cbn [map fst app]. now rewrite <- app_assoc.
  - intros s Hs. rewrite Hlook. cbn [lookup]. now apply image_of_found.
Qed.

Lemma first_occurrences_in (layout : list PlacedShape) :
  forall (seen : list string) (s : PlacedShape),
    In s (first_occurrences seen layout) -> In s layout.
Proof.
  induction layout as [ | t rest IH]; intros seen s; cbn [first_occurrences].
  - auto.
  - destruct (existsb _ seen).
    + intro H. right. eapply IH, H.
    + intros [-> | H]; [ now left | right; eapply IH, H ].
Qed.

Lemma existsb_eqb_In (k : string) (l : list string) :
  existsb (String.eqb k) l = true <-> In k l.
Proof.
  rewrite existsb_exists. split.
  - intros (k' & Hin & Heq). apply String.eqb_eq in Heq. now subst.
  - intro H. exists k. split; [ exact H | apply String.eqb_refl ].
Qed.

Lemma first_occurrences_unseen (layout : list PlacedShape) :
  forall (seen : list string) (s : PlacedShape),
    In s (first_occurrences seen layout) -> ~ In (id (asset s)) seen.
Proof.
  induction layout as [ | t rest IH]; intros seen s; cbn [first_occurrences].
  - intros [].
  - destruct (existsb _ seen) eqn:E.
    + apply IH.
    + intros [-> | H].
      * intro Hin. apply existsb_eqb_In in Hin. congruence.
      * intro Hin. apply (IH _ _ H). apply in_or_app. now left.
Qed.

Lemma first_occurrences_NoDup (layout : list PlacedShape) :
  forall seen : list string,
    NoDup (map (fun s => id (asset s)) (first_occurrences seen layout)).
Proof.
  induction layout as [ | t rest IH]; intro seen; cbn [first_occurrences].
  - constructor.
  - destruct (existsb _ seen); [ apply IH | ].
    cbn [map]. constructor; [ | apply IH ].
    intro Hin. apply in_map_iff in Hin. destruct Hin as (s & Hid & Hs).
    apply first_occurrences_unseen in Hs. apply Hs.
    apply in_or_app. right. rewrite Hid. now left.
Qed.

Lemma first_occurrences_cover (layout : list PlacedShape) :
  forall (seen : list string) (s : PlacedShape),
    In s layout ->
    In (id (asset s)) seen
    \/ exists f : PlacedShape,
         In f (first_occurrences seen layout) /\ id (asset f) = id (asset s).
Proof.
  induction layout as [ | t rest IH]; intros seen s; cbn [first_occurrences].
  - intros [].
  - destruct (existsb _ seen) eqn:E.
    + intros [-> | H].
      * left. now apply existsb_eqb_In.
      * now apply IH.
    + intros [-> | H].
      * right. exists s. split; [ now left | reflexivity ].
      * destruct (IH (seen ++ [id (asset t)]) s H) as [Hin | (f & Hf & Hid)].
        -- apply in_app_or in Hin. destruct Hin as [Hin | [Heq | []]].
           ++ now left.
           ++ right. exists t. split; [ now left | exact Heq ].
        -- right. exists f. split; [ now right | exact Hid ].
Qed.

Lemma image_of_unique (shapes : list ShapeAsset) (layout : list PlacedShape)
  (s : PlacedShape) :
  NoDup (map id shapes) ->
  (forall t, In t layout -> In (asset t) shapes) ->
  In s layout ->
  image_of layout s = image_source s.
Proof.
  intros Hnd Hpool Hs. unfold image_of.
  destruct (find _ layout) as [t | ] eqn:E; [ | reflexivity ].
  apply find_some in E. destruct E as (Ht & Heq). apply String.eqb_eq in Heq.
  unfold image_source. f_equal.
  assert (Hinj : forall a b : ShapeAsset,
             In a shapes -> In b shapes -> id a = id b -> a = b).
  { clear - Hnd. induction shapes as [ | a0 l IH]; intros a b Ha Hb Hid.
    - destruct Ha.
    - cbn [map] in Hnd. inversion Hnd as [ | ? ? Hnot Hnd']; subst.
      destruct Ha as [-> | Ha], Hb as [-> | Hb].
      + reflexivity.
      + exfalso. apply Hnot. rewrite Hid. now apply in_map.
      + exfalso. apply Hnot. rewrite <- Hid. now apply in_map.
      + now apply IH. }
  symmetry. apply Hinj; auto.
Qed.

End RasterTheorems.

(** ** Raster renderer: what reaches the canvas *)

(** [renderToCanvas] on a canvas with a 2D context, when the image of the
    first placement of every asset id loads: the call completes, and the
    canvas receives, after what it held, the white background of the
    requested size and then, placement by placement in layout order,
    save, translate to the center, rotate by the angle in radians, scale,
    draw the image centered on the origin at the asset's size, restore.
    The image drawn is the one loaded for the first placement with the
    same asset id. *)
Theorem canvas_draws_every_placement {B : Browser}
  (layout : list PlacedShape) (c : Canvas) (size : number) :
  context2d c = true ->
  Forall (fun s => decodable (image_source s)) (first_occurrences [] layout) ->
  completion (renderToCanvas layout c size) = Returns tt
  /\ calls (canvas_after (renderToCanvas layout c size))
     = calls c ++ background_calls size
       ++ flat_map
            (fun s =>
               [Save; Translate (x s) (y s);
                Rotate (rotation s * Fin Math_PI / Fin 180)%js;
                Scale (scale s) (scale s);
                DrawImage (image_of layout s)
                  (neg (width (asset s)) / Fin 2)%js
                  (neg (height (asset s)) / Fin 2)%js
                  (width (asset s)) (height (asset s));
                Restore])
            layout.
Proof.
  intros Hctx Hall. rewrite (@renderToCanvas_returns B layout c size Hctx Hall).
  split; reflexivity.
Qed.

Lemma canvas_draws_every_placement_witness :
  completion (renderToCanvas Samples.scenarioA_layout Samples.blank (Fin 400))
  = Returns tt
  /\ calls (canvas_after
              (renderToCanvas Samples.scenarioA_layout Samples.blank (Fin 400)))
     = calls Samples.blank ++ background_calls (Fin 400)
       ++ flat_map
            (fun s =>
               [Save; Translate (x s) (y s);
                Rotate (rotation s * Fin Math_PI / Fin 180)%js;
                Scale (scale s) (scale s);
                DrawImage (image_of Samples.scenarioA_layout s)
                  (neg (width (asset s)) / Fin 2)%js
                  (neg (height (asset s)) / Fin 2)%js
                  (width (asset s)) (height (asset s));
                Restore])
            Samples.scenarioA_layout.
Proof.
  apply (@canvas_draws_every_placement Samples.browser
           Samples.scenarioA_layout Samples.blank (Fin 400)).
  - reflexivity.
  - repeat constructor. exists (200%nat, 100%nat). reflexivity.
Defined.

(** [renderToCanvas] asks for one image per asset id, whatever the number
    of placements: the sources it hands to [loadImage] are those of
    placements of the layout with pairwise distinct asset ids, and every
    placement of the layout has the asset id of one of them. *)
Theorem one_image_request_per_asset_id {B : Browser}
  (layout : list PlacedShape) (c : Canvas) (size : number) :
  context2d c = true ->
  Forall (fun s => decodable (image_source s)) layout ->
  exists firsts : list PlacedShape,
    requested_images (renderToCanvas layout c size)
    = map (fun s => dataUrl (asset s)) firsts
    /\ NoDup (map (fun s => id (asset s)) firsts)
    /\ (forall f, In f firsts -> In f layout)
    /\ (forall s, In s layout ->
          exists f, In f firsts /\ id (asset f) = id (asset s)).
Proof.
  intros Hctx Hall. exists (first_occurrences [] layout).
  assert (Hfirsts : Forall (fun s => decodable (image_source s))
                      (first_occurrences [] layout)).
  { rewrite Forall_forall in *. intros s Hs. apply Hall.
    eapply first_occurrences_in, Hs. }
  rewrite (@renderToCanvas_returns B layout c size Hctx Hfirsts).
  cbn [requested_images]. repeat split.
  - apply first_occurrences_NoDup.
  - apply first_occurrences_in.
  - intros s Hs.
    destruct (first_occurrences_cover layout [] s Hs) as [[] | H]. exact H.
Qed.

Lemma one_image_request_per_asset_id_witness :
  exists firsts : list PlacedShape,
    requested_images
      (renderToCanvas Samples.scenarioA_layout Samples.blank (Fin 400))
    = map (fun s => dataUrl (asset s)) firsts
    /\ NoDup (map (fun s => id (asset s)) firsts)
    /\ (forall f, In f firsts -> In f Samples.scenarioA_layout)
    /\ (forall s, In s Samples.scenarioA_layout ->
          exists f, In f firsts /\ id (asset f) = id (asset s)).
Proof.
  apply (@one_image_request_per_asset_id Samples.browser
           Samples.scenarioA_layout Samples.blank (Fin 400)).
  - reflexivity.
  - repeat constructor; exists (200%nat, 100%nat); reflexivity.
Defined.

(** When an image [renderToCanvas] asks for fails to load, the call is
    rejected with the error event before anything is painted: the canvas
    holds the white background and no placement, also not those whose
    image did load. *)
Theorem undecodable_image_leaves_background {B : Browser}
  (layout : list PlacedShape) (c : Canvas) (size : number) :
  context2d c = true ->
  Exists (fun s => ~ decodable (image_source s)) (first_occurrences [] layout) ->
  completion (renderToCanvas layout c size) = Throws "Event"
  /\ calls (canvas_after (renderToCanvas layout c size))
     = calls c
       ++ [SetWidth size; SetHeight size; SetFillStyle "#ffffff";
           FillRect (Fin 0) (Fin 0) size size].
Proof.
  intros Hctx Hex. unfold renderToCanvas. rewrite Hctx. cbn [negb].
  destruct (load_images_throws layout [] [] Hex) as (requested & ->).
  split; reflexivity.
Qed.

Lemma undecodable_image_leaves_background_witness :
  completion
    (renderToCanvas
       [Samples.centered Samples.mark_asset; Samples.centered Samples.page_asset]
       Samples.blank (Fin 400))
  = Throws "Event"
  /\ calls (canvas_after
              (renderToCanvas
                 [Samples.centered Samples.mark_asset;
                  Samples.centered Samples.page_asset]
                 Samples.blank (Fin 400)))
     = calls Samples.blank
       ++ [SetWidth (Fin 400); SetHeight (Fin 400); SetFillStyle "#ffffff";
           FillRect (Fin 0) (Fin 0) (Fin 400) (Fin 400)].
Proof.
  apply (@undecodable_image_leaves_background Samples.browser
           [Samples.centered Samples.mark_asset; Samples.centered Samples.page_asset]
           Samples.blank (Fin 400)).
  - reflexivity.
  - apply Exists_cons_tl, Exists_cons_hd.
    intros (size & H). discriminate H.
Defined.

(** ** The generate handler *)

Lemma layout_assets_in_pool
  (random : nat -> Q) (shapes : list ShapeAsset) (opts : PatternOptions)
  (layout : list PlacedShape) (p : PlacedShape) :
  generatePatternLayout random shapes opts = Returns layout ->
  In p layout -> In (asset p) shapes.
Proof.
  intros Hrun Hin. apply In_nth_error in Hin. destruct Hin as (j & Hj).
  assert (Hne : shapes <> []) by (eapply layout_pool_nonempty; eassumption).
  destruct (@generatePatternLayout_inv random shapes opts layout Hne Hrun)
    as (k & _ & _ & Hplace).
  destruct (Hplace j p Hj) as (s & s' & Hp).
  apply place_inv in Hp. destruct Hp as (Hget & _).
  eapply array_get_In, Hget.
Qed.

Section HandlerFacts.

Context {B : Browser}.

Lemma renderToCanvas_repainted (layout : list PlacedShape) (c : Canvas)
  (size : number) :
  Forall (fun s => decodable (image_source s)) (first_occurrences [] layout) ->
  canvas_after (renderToCanvas layout c size)
  = repainted size (painted layout) c
  /\ completion (renderToCanvas layout c size) = Returns tt.
Proof.
  intro Hall. unfold repainted. destruct (context2d c) eqn:Hctx.
  - rewrite (@renderToCanvas_returns B layout c size Hctx Hall).
    split; reflexivity.
  - unfold renderToCanvas. rewrite Hctx. split; reflexivity.
Qed.

Lemma render_if_mounted_repainted (layout : list PlacedShape)
  (ref : option Canvas) (size : number) :
  Forall (fun s => decodable (image_source s)) (first_occurrences [] layout) ->
  render_if_mounted layout ref size
  = (option_map (repainted size (painted layout)) ref, Returns tt).
Proof.
  intro Hall. destruct ref as [c | ]; cbn [render_if_mounted option_map].
  - destruct (renderToCanvas_repainted layout c size Hall) as (-> & ->).
    reflexivity.
  - reflexivity.
Qed.

Lemma pool_first_occurrences_decodable
  (random : nat -> Q) (shapes : list ShapeAsset) (opts : PatternOptions)
  (layout : list PlacedShape) :
  Forall (fun s => decodable (dataUrl s)) shapes ->
  generatePatternLayout random shapes opts = Returns layout ->
  Forall (fun s => decodable (image_source s)) (first_occurrences [] layout).
Proof.
  intros Hpool Hrun. rewrite Forall_forall in *. intros s Hs.
  apply first_occurrences_in in Hs. apply Hpool.
  eapply layout_assets_in_pool; eassumption.
Qed.

(** The state the handler leaves when the layout is returned and every
    image asked for loads. *)
Lemma generatePattern_returns (random : nat -> Q) (a : App)
  (layout : list PlacedShape) :
  pool (session a) <> [] ->
  generatePatternLayout random (pool (session a)) (options a) = Returns layout ->
  Forall (fun s => decodable (image_source s)) (first_occurrences [] layout) ->
  generatePattern random a
  = ({| session := session a;
        pattern := Some layout;
        options := options a;
        isGenerating := false;
        previewCanvas :=
          option_map (repainted (Fin 400) (painted layout)) (previewCanvas a);
        fullCanvas :=
          option_map (repainted (canvasSize (options a)) (painted layout))
            (fullCanvas a);
        console := console a |},
     Returns tt).
Proof.
  intros Hne Hrun Hall. unfold generatePattern.
  destruct (pool (session a)) as [ | a0 rest] eqn:Hp; [ congruence | ].
  rewrite Hrun. cbv zeta.
  cbn [setPattern setIsGenerating previewCanvas fullCanvas].
  rewrite (render_if_mounted_repainted layout (previewCanvas a) (Fin 400) Hall).
  rewrite (render_if_mounted_repainted layout (fullCanvas a)
             (canvasSize (options a)) Hall).
  reflexivity.
Qed.

(** The state the handler leaves when the layout is returned and an
    image asked for does not load, with the preview canvas mounted. *)
Lemma generatePattern_caught_preview (random : nat -> Q) (a : App)
  (layout : list PlacedShape) (c : Canvas) :
  pool (session a) <> [] ->
  generatePatternLayout random (pool (session a)) (options a) = Returns layout ->
  Exists (fun s => ~ decodable (image_source s)) (first_occurrences [] layout) ->
  previewCanvas a = Some c ->
  context2d c = true ->
  generatePattern random a
  = ({| session :=
          {| pool := pool (session a);
             alerts := alerts (session a)
                       ++ ["Error generating pattern. Please try again."] |};
        pattern := Some layout;
        options := options a;
        isGenerating := false;
        previewCanvas :=
          Some {| context2d := true;
                  calls := calls c ++ background_calls (Fin 400) |};
        fullCanvas := fullCanvas a;
        console := console a ++ [("Error generating pattern:", "Event")] |},
     Returns tt).
Proof.
  intros Hne Hrun Hex Hpre Hctx. unfold generatePattern.
  destruct (pool (session a)) as [ | a0 rest] eqn:Hp; [ congruence | ].
  rewrite Hrun. cbv zeta.
  cbn [setPattern setIsGenerating previewCanvas fullCanvas].
  rewrite Hpre. cbn [render_if_mounted]. cbv zeta.
  unfold renderToCanvas. rewrite Hctx. cbn [negb].
  destruct (load_images_throws layout [] [] Hex) as (requested & ->).
  cbn [completion canvas_after]. rewrite <- Hp. reflexivity.
Qed.

End HandlerFacts.

(** ** The pool across uploads and removals *)

Section PoolFacts.

Context {B : Browser}.

Lemma load_file_normalized (f : File) (i : nat) (log log' : list string)
  (a : ShapeAsset) :
  load_file f i log = (log', Returns (Some a)) ->
  normalized a /\ file a = f.
Proof.
  unfold load_file, lbind, await, lret, alert, normalized, supported.
  generalize (toString (of_Z (Date_now i))) (toString (of_nat i)).
  intros t d.
  destruct (includes (mime f) "svg") eqn:Hsvg;
    destruct (includes (mime f) "png") eqn:Hpng; cbn [negb andb];
    try discriminate.
  all: unfold readFileAsDataURL;
    destruct (FileReader_readAsDataURL f) as [url | ] eqn:Hurl;
    try discriminate.
  1, 2: unfold readFileAsText;
    destruct (FileReader_readAsText f) as [text | ] eqn:Htext;
    try discriminate;
    destruct (extractSVGDimensions text) as [w h] eqn:Hdims;
    intros [= _ <-]; cbn [file dataUrl type svgContent width height];
    rewrite Hsvg, Hpng, Hurl; repeat split;
    exists text; rewrite Hdims; repeat split; assumption.
  unfold getImageDimensions.
  destruct (Image_onload url) as [[w h] | ] eqn:Hsize; try discriminate.
  intros [= _ <-]. cbn [file dataUrl type svgContent width height].
  rewrite Hsvg, Hpng, Hurl. repeat split.
  exists w, h. repeat split. exact Hsize.
Qed.

Lemma load_file_skipped (f : File) (i : nat) (log log' : list string) :
  load_file f i log = (log', Returns None) -> supported f = false.
Proof.
  unfold load_file, lbind, await, lret, alert, supported.
  generalize (toString (of_Z (Date_now i))) (toString (of_nat i)).
  intros t d.
  destruct (includes (mime f) "svg"); destruct (includes (mime f) "png");
    cbn [negb andb orb]; try reflexivity.
  all: destruct (readFileAsDataURL f) as [url | e | ]; try discriminate.
  1, 2: destruct (readFileAsText f) as [text | e | ]; try discriminate;
    destruct (extractSVGDimensions text); discriminate.
  destruct (getImageDimensions url) as [[w h] | e | ]; discriminate.
Qed.

Lemma load_file_quiet (f : File) (i : nat) (log log' : list string)
  (a : ShapeAsset) :
  load_file f i log = (log', Returns (Some a)) -> log' = log.
Proof.
  unfold load_file, lbind, await, lret, alert.
  generalize (toString (of_Z (Date_now i))) (toString (of_nat i)).
  intros t d.
  destruct (negb _ && negb _); [ discriminate | ].
  destruct (readFileAsDataURL f) as [url | e | ]; try discriminate.
  destruct (includes (mime f) "svg").
  - destruct (readFileAsText f) as [text | e | ]; try discriminate.
    destruct (extractSVGDimensions text). intros [= <- _]. reflexivity.
  - destruct (getImageDimensions url) as [[w h] | e | ]; try discriminate.
    intros [= <- _]. reflexivity.
Qed.

Lemma load_loop_normalized (files : list File) :
  forall (i : nat) (acc new : list ShapeAsset) (log log' : list string),
    load_loop files i acc log = (log', Returns new) ->
    exists pushed : list ShapeAsset,
      new = acc ++ pushed /\ Forall normalized pushed.
Proof.
  induction files as [ | f rest IH]; intros i acc new log log' Hrun.
  - injection Hrun as _ <-. exists []. rewrite app_nil_r. split; constructor.
  - cbn [load_loop] in Hrun. unfold lbind at 1 in Hrun.
    destruct (load_file f i log) as [log1 [[a | ] | e | ]] eqn:Hf;
      try discriminate.
    + apply load_file_normalized in Hf. destruct Hf as (Ha & _).
      apply IH in Hrun as (pushed & -> & Hall).
      exists (a :: pushed). rewrite <- app_assoc. split; [ reflexivity | ].
      now constructor.
    + now apply IH in Hrun.
Qed.

Lemma loadShapes_normalized (files : list File) (s : Session) :
  Forall normalized (pool s) ->
  Forall normalized (pool (fst (loadShapes files s))).
Proof.
  intro Hs. unfold loadShapes.
  destruct (load_loop files 0 [] (alerts s)) as [log [new | e | ]] eqn:Hrun;
    cbn [fst pool]; try exact Hs.
  apply load_loop_normalized in Hrun. destruct Hrun as (pushed & -> & Hall).
  apply Forall_app. split; assumption.
Qed.

Lemma removeShape_normalized (target : string) (s : Session) :
  Forall normalized (pool s) ->
  Forall normalized (pool (removeShape target s)).
Proof.
  intro Hs. unfold removeShape. cbn [pool].
  rewrite Forall_forall in *. intros a Ha. apply filter_In in Ha.
  apply Hs, Ha.
Qed.

(** A single supported file whose batch completes gives one asset, with
    the identifier of batch index 0. *)
Lemma loadShapes_single (f : File) (s s' : Session) :
  supported f = true ->
  loadShapes [f] s = (s', Returns tt) ->
  exists a : ShapeAsset,
    pool s' = pool s ++ [a] /\ file a = f /\ id a = shape_id 0
    /\ alerts s' = alerts s.
Proof.
  intros Hsup. unfold loadShapes. cbn [load_loop]. unfold lbind, lret.
  destruct (load_file f 0 (alerts s)) as [log1 [[a | ] | e | ]] eqn:Hf;
    try discriminate.
  - intros [= <-]. exists a. cbn [pool alerts app].
    rewrite (load_file_quiet _ _ _ Hf).
    repeat split.
    + now apply load_file_normalized in Hf.
    + eapply load_file_id, Hf.
  - apply load_file_skipped in Hf. congruence.
Qed.

End PoolFacts.

(** ** Raster renderer: asset ids and images *)

(** When the layout is drawn from a pool whose asset ids are pairwise
    different and whose images all load, [renderToCanvas] paints every
    placement with the image of its own asset. *)
Theorem unique_ids_paint_own_image {B : Browser}
  (shapes : list ShapeAsset) (layout : list PlacedShape) (c : Canvas)
  (size : number) :
  context2d c = true ->
  NoDup (map id shapes) ->
  Forall (fun a => decodable (dataUrl a)) shapes ->
  (forall s, In s layout -> In (asset s) shapes) ->
  calls (canvas_after (renderToCanvas layout c size))
  = calls c ++ background_calls size
    ++ flat_map
         (fun s => frame_calls s ++ paint_calls s (dataUrl (asset s))) layout.
Proof.
  intros Hctx Hnd Hdec Hpool.
  assert (Hall : Forall (fun s => decodable (image_source s))
                   (first_occurrences [] layout)).
  { rewrite Forall_forall in *. intros s Hs.
    apply first_occurrences_in in Hs. apply Hdec, Hpool, Hs. }
  rewrite (@renderToCanvas_returns B layout c size Hctx Hall).
  cbn [canvas_after calls]. do 2 f_equal. unfold painted.
  apply flat_map_ext_in. intros s Hs.
  now rewrite (@image_of_unique shapes layout s Hnd Hpool Hs).
Qed.

Lemma unique_ids_paint_own_image_witness :
  calls (canvas_after
           (renderToCanvas Samples.scenarioA_layout Samples.blank (Fin 400)))
  = calls Samples.blank ++ background_calls (Fin 400)
    ++ flat_map
         (fun s => frame_calls s ++ paint_calls s (dataUrl (asset s)))
         Samples.scenarioA_layout.
Proof.
  apply (@unique_ids_paint_own_image Samples.browser [Samples.raster]
           Samples.scenarioA_layout Samples.blank (Fin 400)).
  - reflexivity.
  - repeat constructor. intros [].
  - repeat constructor. exists (200%nat, 100%nat). reflexivity.
  - intros s Hs. left.
    repeat (destruct Hs as [<- | Hs]; [ reflexivity | ]). destruct Hs.
Defined.

(** The image cache of [renderToCanvas] is keyed by asset id alone: a
    placement whose asset has the id of the first placement of the layout
    is painted with the first placement's image, at its own asset's
    size, whatever its own data URL is, and its own image is not asked
    for. *)
Theorem shared_id_paints_first_image {B : Browser}
  (s t : PlacedShape) (rest : list PlacedShape) (c : Canvas) (size : number) :
  context2d c = true ->
  In t rest ->
  id (asset t) = id (asset s) ->
  Forall (fun p => decodable (image_source p))
    (first_occurrences [] (s :: rest)) ->
  completion (renderToCanvas (s :: rest) c size) = Returns tt
  /\ In (DrawImage (dataUrl (asset s))
           (neg (width (asset t)) / Fin 2)%js
           (neg (height (asset t)) / Fin 2)%js
           (width (asset t)) (height (asset t)))
        (calls (canvas_after (renderToCanvas (s :: rest) c size)))
  /\ exists others : list PlacedShape,
       requested_images (renderToCanvas (s :: rest) c size)
       = dataUrl (asset s) :: map (fun p => dataUrl (asset p)) others
       /\ forall p, In p others -> id (asset p) <> id (asset s).
Proof.
  intros Hctx Ht Hid Hall.
  rewrite (@renderToCanvas_returns B (s :: rest) c size Hctx Hall).
  cbn [completion canvas_after calls requested_images].
  split; [ reflexivity | ]. split.
  - apply in_or_app. right. apply in_or_app. right.
    unfold painted. apply in_flat_map. exists t. split; [ now right | ].
    apply in_or_app. right. left.
    unfold image_of. cbn [find]. rewrite Hid, String.eqb_refl. reflexivity.
  - exists (first_occurrences [id (asset s)] rest). split; [ reflexivity | ].
    intros p Hp Heq. apply first_occurrences_unseen in Hp. apply Hp.
    rewrite Heq. now left.
Qed.

Lemma shared_id_paints_first_image_witness :
  completion
    (renderToCanvas
       (Samples.centered Samples.raster :: [Samples.centered Samples.logo_asset])
       Samples.blank (Fin 400))
  = Returns tt
  /\ In (DrawImage (dataUrl (asset (Samples.centered Samples.raster)))
           (neg (width (asset (Samples.centered Samples.logo_asset))) / Fin 2)%js
           (neg (height (asset (Samples.centered Samples.logo_asset))) / Fin 2)%js
           (width (asset (Samples.centered Samples.logo_asset)))
           (height (asset (Samples.centered Samples.logo_asset))))
        (calls (canvas_after
                  (renderToCanvas
                     (Samples.centered Samples.raster
                      :: [Samples.centered Samples.logo_asset])
                     Samples.blank (Fin 400))))
  /\ exists others : list PlacedShape,
       requested_images
         (renderToCanvas
            (Samples.centered Samples.raster
             :: [Samples.centered Samples.logo_asset])
            Samples.blank (Fin 400))
       = dataUrl (asset (Samples.centered Samples.raster))
         :: map (fun p => dataUrl (asset p)) others
       /\ forall p, In p others ->
            id (asset p) <> id (asset (Samples.centered Samples.raster)).
Proof.
  apply (@shared_id_paints_first_image Samples.browser
           (Samples.centered Samples.raster)
           (Samples.centered Samples.logo_asset)
           [Samples.centered Samples.logo_asset] Samples.blank (Fin 400)).
  - reflexivity.
  - left. reflexivity.
  - reflexivity.
  - apply Forall_cons; [ | apply Forall_nil ].
    exists (200%nat, 100%nat). reflexivity.
Defined.

(** ** The generate handler: what a click leaves behind *)

(** [generatePattern] with a non-empty pool whose images all load and a
    count that is not infinite: the handler completes, the pattern is the
    layout the engine returns, the busy flag is off again, no alert is
    raised and nothing is logged.  The preview canvas (size 400) and the
    full canvas ([canvasSize]) receive the same placement calls after
    their backgrounds: the preview is not scaled down, it shows the
    top-left 400 pixels of the full pattern.  A canvas that is not mounted
    stays so, as the preview does on the first generation. *)
Theorem generation_paints_both_canvases {B : Browser}
  (random : nat -> Q) (a : App) (k : nat) :
  unit_interval random ->
  pool (session a) <> [] ->
  loop_bound (shapeCount (options a)) = Some k ->
  Forall (fun s => decodable (dataUrl s)) (pool (session a)) ->
  exists layout : list PlacedShape,
    generatePatternLayout random (pool (session a)) (options a) = Returns layout
    /\ snd (generatePattern random a) = Returns tt
    /\ pattern (fst (generatePattern random a)) = Some layout
    /\ isGenerating (fst (generatePattern random a)) = false
    /\ session (fst (generatePattern random a)) = session a
    /\ console (fst (generatePattern random a)) = console a
    /\ previewCanvas (fst (generatePattern random a))
       = option_map (repainted (Fin 400) (painted layout)) (previewCanvas a)
    /\ fullCanvas (fst (generatePattern random a))
       = option_map (repainted (canvasSize (options a)) (painted layout))
           (fullCanvas a).
Proof.
  intros Hr Hne Hk Hdec.
  destruct (@generatePatternLayout_total random (pool (session a)) (options a)
              Hr k Hk) as (layout & Hrun).
  exists layout. split; [ exact Hrun | ].
  rewrite (@generatePattern_returns B random a layout Hne Hrun
             (@pool_first_occurrences_decodable B random (pool (session a))
                (options a) layout Hdec Hrun)).
  repeat split.
Qed.

Lemma generation_paints_both_canvases_witness :
  exists layout : list PlacedShape,
    generatePatternLayout Samples.zeros
      (pool (session (Samples.opened [Samples.raster] Samples.scenarioA)))
      (options (Samples.opened [Samples.raster] Samples.scenarioA))
    = Returns layout
    /\ snd (generatePattern Samples.zeros
              (Samples.opened [Samples.raster] Samples.scenarioA))
       = Returns tt
    /\ pattern (fst (generatePattern Samples.zeros
                       (Samples.opened [Samples.raster] Samples.scenarioA)))
       = Some layout
    /\ isGenerating (fst (generatePattern Samples.zeros
                            (Samples.opened [Samples.raster] Samples.scenarioA)))
       = false
    /\ session (fst (generatePattern Samples.zeros
                       (Samples.opened [Samples.raster] Samples.scenarioA)))
       = session (Samples.opened [Samples.raster] Samples.scenarioA)
    /\ console (fst (generatePattern Samples.zeros
                       (Samples.opened [Samples.raster] Samples.scenarioA)))
       = console (Samples.opened [Samples.raster] Samples.scenarioA)
    /\ previewCanvas (fst (generatePattern Samples.zeros
                             (Samples.opened [Samples.raster] Samples.scenarioA)))
       = option_map (repainted (Fin 400) (painted layout))
           (previewCanvas (Samples.opened [Samples.raster] Samples.scenarioA))
    /\ fullCanvas (fst (generatePattern Samples.zeros
                          (Samples.opened [Samples.raster] Samples.scenarioA)))
       = option_map
           (repainted
              (canvasSize (options (Samples.opened [Samples.raster] Samples.scenarioA)))
              (painted layout))
           (fullCanvas (Samples.opened [Samples.raster] Samples.scenarioA)).
Proof.
  apply (@generation_paints_both_canvases Samples.browser Samples.zeros
           (Samples.opened [Samples.raster] Samples.scenarioA) 4%nat).
  - exact zeros_unit.
  - discriminate.
  - reflexivity.
  - repeat constructor. exists (200%nat, 100%nat). reflexivity.
Defined.

(** The two exports after a completed generation describe the same
    layout: the SVG download is [renderToSVG] of the layout the engine
    returned, at [canvasSize], and the PNG download is the blob of the full
    canvas carrying that layout's placement calls; their names differ in
    the extension only. *)
Theorem exports_follow_generation {B : Browser}
  (random : nat -> Q) (a : App) (k : nat) (c : Canvas)
  (toBlob : Canvas -> option string) (now : Z) :
  unit_interval random ->
  pool (session a) <> [] ->
  loop_bound (shapeCount (options a)) = Some k ->
  Forall (fun s => decodable (dataUrl s)) (pool (session a)) ->
  fullCanvas a = Some c ->
  exists layout : list PlacedShape,
    generatePatternLayout random (pool (session a)) (options a) = Returns layout
    /\ exportSVG now (fst (generatePattern random a))
       = Some {| filename :=
                   ("brand-pattern-" ++ toString (of_Z now) ++ ".svg")%string;
                 mediaType := "image/svg+xml";
                 content := renderToSVG layout (canvasSize (options a)) |}
    /\ exportPNG toBlob now (fst (generatePattern random a))
       = option_map
           (fun blob =>
              {| filename :=
                   ("brand-pattern-" ++ toString (of_Z now) ++ ".png")%string;
                 mediaType := "image/png";
                 content := blob |})
           (toBlob (repainted (canvasSize (options a)) (painted layout) c)).
Proof.
  intros Hr Hne Hk Hdec Hfull.
  destruct (@generatePatternLayout_total random (pool (session a)) (options a)
              Hr k Hk) as (layout & Hrun).
  exists layout. split; [ exact Hrun | ].
  rewrite (@generatePattern_returns B random a layout Hne Hrun
             (@pool_first_occurrences_decodable B random (pool (session a))
                (options a) layout Hdec Hrun)).
  unfold exportSVG, exportPNG. cbn [fst pattern options fullCanvas].
  rewrite Hfull. cbn [option_map].
  split; [ reflexivity | ].
  now destruct (toBlob _).
Qed.

Lemma exports_follow_generation_witness :
  exists layout : list PlacedShape,
    generatePatternLayout Samples.zeros
      (pool (session (Samples.opened [Samples.raster] Samples.scenarioA)))
      (options (Samples.opened [Samples.raster] Samples.scenarioA))
    = Returns layout
    /\ exportSVG 1700000000000
         (fst (generatePattern Samples.zeros
                 (Samples.opened [Samples.raster] Samples.scenarioA)))
       = Some {| filename :=
                   ("brand-pattern-" ++ toString (of_Z 1700000000000) ++ ".svg")%string;
                 mediaType := "image/svg+xml";
                 content :=
                   renderToSVG layout
                     (canvasSize
                        (options (Samples.opened [Samples.raster] Samples.scenarioA))) |}
    /\ exportPNG (fun _ => Some "blob") 1700000000000
         (fst (generatePattern Samples.zeros
                 (Samples.opened [Samples.raster] Samples.scenarioA)))
       = option_map
           (fun blob =>
              {| filename :=
                   ("brand-pattern-" ++ toString (of_Z 1700000000000) ++ ".png")%string;
                 mediaType := "image/png";
                 content := blob |})
           ((fun _ : Canvas => Some "blob")
              (repainted
                 (canvasSize
                    (options (Samples.opened [Samples.raster] Samples.scenarioA)))
                 (painted layout) Samples.blank)).
Proof.
  apply (@exports_follow_generation Samples.browser Samples.zeros
           (Samples.opened [Samples.raster] Samples.scenarioA) 4%nat
           Samples.blank (fun _ => Some "blob") 1700000000000).
  - exact zeros_unit.
  - discriminate.
  - reflexivity.
  - repeat constructor. exists (200%nat, 100%nat). reflexivity.
  - reflexivity.
Defined.

(** When an image of the layout does not load while the preview is
    painted, [generatePattern] still completes: the error is logged, the
    alert is raised and the busy flag is off again.  The pattern has
    already been replaced by the new layout, the preview canvas holds the
    white background only, and the full canvas is not touched: it keeps
    the picture of the generation before.  The SVG export then carries the
    new layout. *)
Theorem failed_render_keeps_new_pattern {B : Browser}
  (random : nat -> Q) (a : App) (layout : list PlacedShape) (c : Canvas)
  (now : Z) :
  pool (session a) <> [] ->
  generatePatternLayout random (pool (session a)) (options a) = Returns layout ->
  Exists (fun s => ~ decodable (image_source s)) (first_occurrences [] layout) ->
  previewCanvas a = Some c ->
  context2d c = true ->
  snd (generatePattern random a) = Returns tt
  /\ alerts (session (fst (generatePattern random a)))
     = alerts (session a) ++ ["Error generating pattern. Please try again."]
  /\ console (fst (generatePattern random a))
     = console a ++ [("Error generating pattern:", "Event")]
  /\ isGenerating (fst (generatePattern random a)) = false
  /\ pattern (fst (generatePattern random a)) = Some layout
  /\ previewCanvas (fst (generatePattern random a))
     = Some {| context2d := true;
               calls := calls c ++ background_calls (Fin 400) |}
  /\ fullCanvas (fst (generatePattern random a)) = fullCanvas a
  /\ exportSVG now (fst (generatePattern random a))
     = Some {| filename :=
                 ("brand-pattern-" ++ toString (of_Z now) ++ ".svg")%string;
               mediaType := "image/svg+xml";
               content := renderToSVG layout (canvasSize (options a)) |}.
Proof.
  intros Hne Hrun Hex Hpre Hctx.
  rewrite (@generatePattern_caught_preview B random a layout c
             Hne Hrun Hex Hpre Hctx).
  repeat split.
Qed.

Lemma failed_render_keeps_new_pattern_witness :
  snd (generatePattern Samples.zeros
         (Samples.showing [Samples.page_asset] Samples.scenarioA []))
  = Returns tt
  /\ alerts (session (fst (generatePattern Samples.zeros
                             (Samples.showing [Samples.page_asset]
                                Samples.scenarioA []))))
     = alerts (session (Samples.showing [Samples.page_asset] Samples.scenarioA []))
       ++ ["Error generating pattern. Please try again."]
  /\ console (fst (generatePattern Samples.zeros
                     (Samples.showing [Samples.page_asset] Samples.scenarioA [])))
     = console (Samples.showing [Samples.page_asset] Samples.scenarioA [])
       ++ [("Error generating pattern:", "Event")]
  /\ isGenerating (fst (generatePattern Samples.zeros
                          (Samples.showing [Samples.page_asset]
                             Samples.scenarioA [])))
     = false
  /\ pattern (fst (generatePattern Samples.zeros
                     (Samples.showing [Samples.page_asset] Samples.scenarioA [])))
     = Some Samples.page_layout
  /\ previewCanvas (fst (generatePattern Samples.zeros
                           (Samples.showing [Samples.page_asset]
                              Samples.scenarioA [])))
     = Some {| context2d := true;
               calls := calls Samples.blank ++ background_calls (Fin 400) |}
  /\ fullCanvas (fst (generatePattern Samples.zeros
                        (Samples.showing [Samples.page_asset]
                           Samples.scenarioA [])))
     = fullCanvas (Samples.showing [Samples.page_asset] Samples.scenarioA [])
  /\ exportSVG 1700000000000
       (fst (generatePattern Samples.zeros
               (Samples.showing [Samples.page_asset] Samples.scenarioA [])))
     = Some {| filename :=
                 ("brand-pattern-" ++ toString (of_Z 1700000000000) ++ ".svg")%string;
               mediaType := "image/svg+xml";
               content :=
                 renderToSVG Samples.page_layout
                   (canvasSize
                      (options (Samples.showing [Samples.page_asset]
                                  Samples.scenarioA []))) |}.
Proof.
  apply (@failed_render_keeps_new_pattern Samples.browser Samples.zeros
           (Samples.showing [Samples.page_asset] Samples.scenarioA [])
           Samples.page_layout Samples.blank 1700000000000).
  - discriminate.
  - vm_compute. reflexivity.
  - apply Exists_cons_hd. intros (size & H). discriminate H.
  - reflexivity.
  - reflexivity.
Defined.

(** ** The pool: invariant, removal, identifiers *)

Lemma filter_keeps_all (A : Type) (f : A -> bool) (l : list A) :
  (forall a, In a l -> f a = true) -> filter f l = l.
Proof.
  induction l as [ | a l IH]; intro H; cbn [filter]; [ reflexivity | ].
  rewrite (H a (or_introl eq_refl)), IH; [ reflexivity | ].
  intros b Hb. apply H. now right.
Qed.

Lemma filter_other_ids (target : string) (l : list ShapeAsset) :
  ~ In target (map id l) ->
  filter (fun a => negb (String.eqb (id a) target)) l = l.
Proof.
  intro Hnot. apply filter_keeps_all. intros a Ha.
  destruct (String.eqb_spec (id a) target) as [E | ]; [ | reflexivity ].
  exfalso. apply Hnot. rewrite <- E. now apply in_map.
Qed.

(** Whatever files are uploaded and whatever assets are removed, every
    asset of the pool comes from a supported file and carries that file's
    data URL; a raster asset has an image that loads and that image's
    natural size, a vector asset has its markup and the size
    [extractSVGDimensions] reads from it. *)
Theorem reachable_pool_normalized {B : Browser} (s : Session) :
  reachable s -> Forall normalized (pool s).
Proof.
  induction 1 as [ | files s _ IH | target s _ IH].
  - constructor.
  - now apply loadShapes_normalized.
  - now apply removeShape_normalized.
Qed.

Lemma reachable_pool_normalized_witness :
  Forall normalized
    (pool (removeShape "shape-1700000000000-0"
             (fst (loadShapes Samples.batch fresh)))).
Proof.
  apply (@reachable_pool_normalized Samples.browser
           (removeShape "shape-1700000000000-0"
              (fst (loadShapes Samples.batch fresh)))).
  apply reachable_remove, reachable_load, reachable_fresh.
Defined.

(** [removeShape] in a pool whose asset ids are pairwise different takes
    out the asset with the given id and nothing else; the order of the
    others and the alerts are kept. *)
Theorem removeShape_removes_exactly_one
  (s : Session) (before after : list ShapeAsset) (a : ShapeAsset) :
  NoDup (map id (pool s)) ->
  pool s = before ++ a :: after ->
  removeShape (id a) s = {| pool := before ++ after; alerts := alerts s |}.
Proof.
  intros Hnd Hpool. unfold removeShape. f_equal. rewrite Hpool in *.
  rewrite map_app in Hnd. cbn [map] in Hnd.
  pose proof (NoDup_remove_2 _ _ _ Hnd) as Hnot.
  rewrite filter_app. cbn [filter]. rewrite String.eqb_refl. cbn [negb].
  rewrite !filter_other_ids; [ reflexivity | | ];
    intro Hin; apply Hnot, in_or_app; [ now right | now left ].
Qed.

Lemma removeShape_removes_exactly_one_witness :
  removeShape (id Samples.mark_asset)
    {| pool := [Samples.logo_asset] ++ Samples.mark_asset :: []; alerts := [] |}
  = {| pool := [Samples.logo_asset] ++ [];
       alerts := alerts {| pool := [Samples.logo_asset] ++ Samples.mark_asset :: [];
                           alerts := [] |} |}.
Proof.
  apply (@removeShape_removes_exactly_one
           {| pool := [Samples.logo_asset] ++ Samples.mark_asset :: [];
              alerts := [] |}
           [Samples.logo_asset] [] Samples.mark_asset).
  - repeat constructor.
    + intros [H | []]. discriminate H.
    + intros [].
  - reflexivity.
Defined.

(** Uploading one supported file and then removing the asset it gave
    restores the session, provided no asset of the pool already had the
    identifier the upload assigns. *)
Theorem remove_undoes_upload {B : Browser} (f : File) (s s' : Session) :
  supported f = true ->
  loadShapes [f] s = (s', Returns tt) ->
  ~ In (shape_id 0) (map id (pool s)) ->
  exists a : ShapeAsset,
    pool s' = pool s ++ [a] /\ file a = f
    /\ removeShape (id a) s' = s.
Proof.
  intros Hsup Hload Hnew.
  destruct (@loadShapes_single B f s s' Hsup Hload)
    as (a & Hpool & Hfile & Hid & Hal).
  exists a. split; [ exact Hpool | ]. split; [ exact Hfile | ].
  unfold removeShape. rewrite Hpool, Hal, filter_app. cbn [filter].
  rewrite String.eqb_refl. cbn [negb]. rewrite app_nil_r.
  rewrite filter_other_ids by now rewrite Hid.
  now destruct s.
Qed.

Lemma remove_undoes_upload_witness :
  exists a : ShapeAsset,
    pool (fst (loadShapes [Samples.mark_png] fresh)) = pool fresh ++ [a]
    /\ file a = Samples.mark_png
    /\ removeShape (id a) (fst (loadShapes [Samples.mark_png] fresh)) = fresh.
Proof.
  apply (@remove_undoes_upload Samples.browser Samples.mark_png fresh
           (fst (loadShapes [Samples.mark_png] fresh))).
  - reflexivity.
  - vm_compute. reflexivity.
  - intros [].
Defined.

(** The identifier of an asset is made of the clock reading and the index
    of its file in the batch, nothing else.  Two single-file uploads that
    read the same clock value therefore give two assets with one
    identifier, and removing the second asset removes the first one as
    well. *)
Theorem ids_repeat_on_equal_clock
  (B1 B2 : Browser) (f g : File) (s s1 s2 : Session) :
  @Date_now B1 0%nat = @Date_now B2 0%nat ->
  supported f = true -> supported g = true ->
  @loadShapes B1 [f] s = (s1, Returns tt) ->
  @loadShapes B2 [g] s1 = (s2, Returns tt) ->
  exists a b : ShapeAsset,
    pool s2 = pool s ++ [a; b] /\ file a = f /\ file b = g
    /\ id a = id b
    /\ pool (removeShape (id b) s2) = pool (removeShape (id b) s).
Proof.
  intros Hclock Hf Hg Hload1 Hload2.
  destruct (@loadShapes_single B1 f s s1 Hf Hload1)
    as (a & Hpool1 & Hfa & Hida & _).
  destruct (@loadShapes_single B2 g s1 s2 Hg Hload2)
    as (b & Hpool2 & Hfb & Hidb & _).
  assert (Hid : id a = id b).
  { rewrite Hida, Hidb. unfold shape_id. now rewrite Hclock. }
  exists a, b. rewrite Hpool2, Hpool1, <- app_assoc.
  repeat split; try assumption.
  unfold removeShape. cbn [pool]. rewrite Hpool2, Hpool1, <- app_assoc.
  rewrite filter_app. cbn [app filter].
  rewrite Hid, String.eqb_refl. cbn [negb]. now rewrite app_nil_r.
Qed.

Lemma ids_repeat_on_equal_clock_witness :
  exists a b : ShapeAsset,
    pool (fst (loadShapes [Samples.mark_png]
                 (fst (loadShapes [Samples.logo_svg] fresh))))
    = pool fresh ++ [a; b]
    /\ file a = Samples.logo_svg /\ file b = Samples.mark_png
    /\ id a = id b
    /\ pool (removeShape (id b)
               (fst (loadShapes [Samples.mark_png]
                       (fst (loadShapes [Samples.logo_svg] fresh)))))
       = pool (removeShape (id b) fresh).
Proof.
  apply (@ids_repeat_on_equal_clock Samples.browser Samples.browser
           Samples.logo_svg Samples.mark_png fresh
           (fst (loadShapes [Samples.logo_svg] fresh))
           (fst (loadShapes [Samples.mark_png]
                   (fst (loadShapes [Samples.logo_svg] fresh))))).
  - reflexivity.
  - reflexivity.
  - reflexivity.
  - vm_compute. reflexivity.
  - vm_compute. reflexivity.
Defined.

(** ** Layout engine: where placements land *)



(** The scale of a placement whose asset has no extent is not a number
    the renderers can use: an asset of width 0 and height 0 is placed with
    scale [+Infinity], which the vector renderer prints as
    [scale(Infinity)], and an asset with a [NaN] dimension is placed with
    scale [NaN]. *)
Theorem degenerate_size_degenerate_scale
  (random : nat -> Q) (shapes : list ShapeAsset) (opts : PatternOptions)
  (n : Z) (o c : Q) (layout : list PlacedShape) (p : PlacedShape) :
  valid_options opts n o c ->
  generatePatternLayout random shapes opts = Returns layout ->
  In p layout ->
  (width (asset p) = Fin 0 -> height (asset p) = Fin 0 ->
   scale p = PosInf
   /\ includes (transform_of p) "scale(Infinity)" = true)
  /\ (width (asset p) = NaN \/ height (asset p) = NaN -> scale p = NaN).
Proof.
  intros Hv Hrun Hin.
  apply In_nth_error in Hin as (j & Hj).
  pose proof (@layout_pool_nonempty _ _ _ _ _ _ Hrun Hj) as Hne.
  destruct (@generatePatternLayout_inv random shapes opts layout Hne Hrun)
    as (k & _ & _ & Hnth).
  destruct (Hnth j p Hj) as (st & st' & Hp).
  apply place_inv in Hp as (_ & _ & _ & _ & Hscale).
  rewrite (valid_cellSize Hv), mul_Fin in Hscale.
  pose proof (valid_cellSize_pos Hv) as Hcs.
  split.
  - intros Hw Hh. rewrite Hw, Hh in Hscale.
    assert (Hinf : scale p = PosInf).
    { rewrite Hscale. unfold Math_max, div, Qsign.
      change (Qeq_bool (if Qle_bool 0 0 then 0 else 0) 0) with true. cbv iota.
      assert (E : (c / inject_Z (Zceil_sqrt n) * 0.6 ?= 0) = Gt).
      { apply Qgt_alt. lra. }
      now rewrite E. }
    split; [ exact Hinf | ].
    unfold transform_of. rewrite Hinf.
    change (toFixed 4 PosInf) with "Infinity".
    do 6 apply includes_skip. reflexivity.
  - intros [H | H]; rewrite Hscale, H.
    + reflexivity.
    + destruct (width (asset p)); reflexivity.
Qed.

Lemma degenerate_size_degenerate_scale_witness :
  (width (asset (nth 0 Samples.flat_layout Samples.origin)) = Fin 0 ->
   height (asset (nth 0 Samples.flat_layout Samples.origin)) = Fin 0 ->
   scale (nth 0 Samples.flat_layout Samples.origin) = PosInf
   /\ includes (transform_of (nth 0 Samples.flat_layout Samples.origin))
        "scale(Infinity)" = true)
  /\ (width (asset (nth 0 Samples.flat_layout Samples.origin)) = NaN
      \/ height (asset (nth 0 Samples.flat_layout Samples.origin)) = NaN ->
      scale (nth 0 Samples.flat_layout Samples.origin) = NaN).
Proof.
  apply (@degenerate_size_degenerate_scale Samples.zeros [Samples.flat_asset]
           Samples.scenarioA 4 0 400 Samples.flat_layout
           (nth 0 Samples.flat_layout Samples.origin) scenarioA_valid).
  - vm_compute. reflexivity.
  - left. reflexivity.
Defined.

(** ** Asset normalizer: a file that cannot be read *)

(** A supported file whose read fails rejects the whole [loadShapes]
    call with the reader's error event: the pool is not updated, not even
    with the files before it, the files after it are not looked at, and
    the only alerts raised are those for the unsupported files before
    it. *)
Theorem unreadable_file_rejects_batch
  (B : Browser) (files rest : list File) (f : File) (s : Session) :
  (forall f', In f' files -> supported f' = true -> readable f') ->
  supported f = true ->
  FileReader_readAsDataURL f = None ->
  loadShapes (files ++ f :: rest) s
  = ({| pool := pool s;
        alerts := alerts s
                  ++ map warning (filter (fun f' => negb (supported f')) files) |},
     Throws "ProgressEvent").
Proof.
  intros Hok Hsup Hurl.
  assert (Hloop : forall i acc log,
             load_loop (files ++ f :: rest) i acc log
             = (log ++ map warning (filter (fun f' => negb (supported f')) files),
                Throws "ProgressEvent")).
  { induction files as [ | f0 more IH]; intros i acc log.
    - cbn [app load_loop filter map]. rewrite app_nil_r.
      unfold lbind at 1. unfold load_file. unfold supported in Hsup.
      rewrite <- negb_orb, Hsup. cbn [negb].
      unfold lbind, await, readFileAsDataURL. now rewrite Hurl.
    - assert (Hmore : forall f', In f' more -> supported f' = true -> readable f')
        by (intros f' Hin; apply Hok; now right).
      cbn [app load_loop filter]. unfold lbind at 1.
      destruct (supported f0) eqn:Hs; cbn [negb].
      + destruct (@load_file_supported B f0 i log Hs (Hok f0 (or_introl eq_refl) Hs))
          as (a & -> & _). apply (IH Hmore).
      + rewrite (load_file_unsupported f0 i log Hs). rewrite (IH Hmore).
        cbn [map]. now rewrite <- app_assoc. }
  unfold loadShapes. now rewrite Hloop.
Qed.

Lemma unreadable_file_rejects_batch_witness :
  loadShapes ([Samples.notes_txt; Samples.logo_svg]
              ++ Samples.gone_png :: [Samples.mark_png]) fresh
  = ({| pool := pool fresh;
        alerts := alerts fresh
                  ++ map warning
                       (filter (fun f' => negb (supported f'))
                          [Samples.notes_txt; Samples.logo_svg]) |},
     Throws "ProgressEvent").
Proof.
  apply (@unreadable_file_rejects_batch Samples.browser
           [Samples.notes_txt; Samples.logo_svg] [Samples.mark_png]
           Samples.gone_png fresh).
  - intros f' [<- | [<- | []]] Hs.
    + discriminate Hs.
    + exists Samples.logo_url. split; [ reflexivity | ].
      cbn. eexists. reflexivity.
  - reflexivity.
  - reflexivity.
Defined.
